(** * autoresume: the content-alignment pipeline of [autoresume.py]

    A shallow embedding of the parts of [autoresume.py] that the
    specification makes claims about:

    - [safe_json_loads] (the Resilient Parser), with the standard [json]
      decoder and the two [re] searches it relies on;
    - [extract_signal_weights] (the Signal Profiler) and
      [tag_resume_bullets] (the Unit Tagger) from the oracle's reply on:
      the reply text is an argument;
    - the two halves of [score_and_adjust_bullets]: the Alignment Scorer
      ([scored_bullets], the loop and the sort) and the extraction of
      the document from the rewrite oracle's reply ([clean_text]).

    Values that come out of [json.loads] are of the type [json]; text is
    a list of Unicode code points; an exception is an outcome of a
    computation, and [print] appends a line to a transcript.  The
    definitions come first, the proofs after them; the theorems for the
    specification's claims carry the claim's number. *)

From Stdlib Require Import String Ascii.
From Stdlib Require Import ZArith NArith List Bool Lia.
From Stdlib Require Import Permutation Sorted SpecFloat.
Import ListNotations.

Local Open Scope Z_scope.

(* ================================================================= *)
(** ** Text *)

(** A Python [str] is a sequence of code points. *)
Abbreviation char := N (only parsing).
Abbreviation pystr := (list N) (only parsing).

(** Literals are written as Rocq strings and read as their ASCII codes. *)
Fixpoint str (s : string) : pystr :=
  match s with
  | EmptyString => []
  | String a s' => N_of_ascii a :: str s'
  end.
Arguments str : simpl never.

(** The characters a Rocq string literal cannot hold plainly. *)
Definition DQUOTE : char := 34%N.
Definition NEWLINE : char := 10%N.

Fixpoint str_eqb (a b : pystr) : bool :=
  match a, b with
  | [], [] => true
  | x :: a', y :: b' => N.eqb x y && str_eqb a' b'
  | _, _ => false
  end.

(* ================================================================= *)
(** ** Values *)

(** What [json.loads] can return: [None], [bool], [int], [float], [str],
    [list] and [dict].  A [dict] keeps its keys in insertion order, so it
    is an association list whose keys are unique when it comes out of the
    decoder; a float is an IEEE 754 binary64 value. *)
#[local] Unset Elimination Schemes.
Inductive json : Type :=
| JNull
| JBool (b : bool)
| JInt (z : Z)
| JFloat (f : spec_float)
| JStr (s : pystr)
| JList (l : list json)
| JDict (d : list (pystr * json)).
#[local] Set Elimination Schemes.

Abbreviation dict := (list (list N * json)) (only parsing).

Fixpoint assoc_get {A : Type} (k : pystr) (d : list (pystr * A)) : option A :=
  match d with
  | [] => None
  | (k', v) :: d' => if str_eqb k k' then Some v else assoc_get k d'
  end.

(** [d[k] = v]: an existing key keeps its place, a new one goes last. *)
Fixpoint assoc_set {A : Type} (k : pystr) (v : A) (d : list (pystr * A))
  : list (pystr * A) :=
  match d with
  | [] => [(k, v)]
  | (k', v') :: d' =>
      if str_eqb k k' then (k', v) :: d' else (k', v') :: assoc_set k v d'
  end.

(* ================================================================= *)
(** ** Outcomes: exceptions and the transcript *)

Inductive exn : Type :=
| JSONDecodeError
| TypeError
| AttributeError
| ValueError
| OverflowError
| SystemExit.

Inductive outcome (A : Type) : Type :=
| Returned (a : A)
| Raised (e : exn).
Arguments Returned {A} a.
Arguments Raised {A} e.

Definition obind {A B : Type} (m : outcome A) (k : A -> outcome B) : outcome B :=
  match m with
  | Returned a => k a
  | Raised e => Raised e
  end.

(** A computation that prints: its outcome and the lines it wrote. *)
Definition run (A : Type) : Type := outcome A * list pystr.

Definition ret {A : Type} (a : A) : run A := (Returned a, []).
Definition raise {A : Type} (e : exn) : run A := (Raised e, []).
Definition print (line : pystr) : run unit := (Returned tt, [line]).
Definition lift {A : Type} (m : outcome A) : run A := (m, []).

Definition bind {A B : Type} (m : run A) (k : A -> run B) : run B :=
  match m with
  | (Returned a, out) => let '(r, out') := k a in (r, out ++ out')
  | (Raised e, out) => (Raised e, out)
  end.

Declare Scope run_scope.
Delimit Scope run_scope with run.
Notation "x <- m ;; k" := (bind m (fun x => k))
  (at level 61, m at next level, right associativity) : run_scope.
Notation "m ;; k" := (bind m (fun _ => k))
  (at level 61, right associativity) : run_scope.

Declare Scope outcome_scope.
Delimit Scope outcome_scope with outcome.
Notation "x <~ m ;; k" := (obind m (fun x => k))
  (at level 61, m at next level, right associativity) : outcome_scope.

Definition result {A : Type} (m : run A) : outcome A := fst m.
Definition printed {A : Type} (m : run A) : list pystr := snd m.

(* ================================================================= *)
(** ** The Python operations the code applies to decoded values *)

Module Py.

(** Truth value, as [not x], [x or y] and [if x] take it. *)
Definition truthy (v : json) : bool :=
  match v with
  | JNull => false
  | JBool b => b
  | JInt z => negb (z =? 0)
  | JFloat (S754_zero _) => false
  | JFloat _ => true
  | JStr s => match s with [] => false | _ => true end
  | JList l => match l with [] => false | _ => true end
  | JDict d => match d with [] => false | _ => true end
  end.

(** [x or y] *)
Definition or_ (x y : json) : json := if truthy x then x else y.

(** [o.get(key, default)] with a text key: only a [dict] has [get]. *)
Definition get (o : json) (key : pystr) (default : json) : outcome json :=
  match o with
  | JDict d =>
      match assoc_get key d with
      | Some v => Returned v
      | None => Returned default
      end
  | _ => Raised AttributeError
  end.

(** [o.get(key, default)] with any value as the key.  The attribute is
    looked up first; then the key is hashed, which a list or a dict
    refuses; a key that is not text equals none of a decoded dict's
    keys. *)
Definition get_value (o : json) (key : json) (default : json) : outcome json :=
  match o with
  | JDict d =>
      match key with
      | JStr k =>
          match assoc_get k d with
          | Some v => Returned v
          | None => Returned default
          end
      | JList _ | JDict _ => Raised TypeError
      | _ => Returned default
      end
  | _ => Raised AttributeError
  end.

(** [o.setdefault(key, default)] as a statement: the dict afterwards. *)
Definition setdefault (o : json) (key : pystr) (default : json) : outcome json :=
  match o with
  | JDict d =>
      match assoc_get key d with
      | Some _ => Returned (JDict d)
      | None => Returned (JDict (d ++ [(key, default)]))
      end
  | _ => Raised AttributeError
  end.

(** [for x in v]: the elements of a list, the characters of a text, the
    keys of a dict. *)
Definition iter (v : json) : outcome (list json) :=
  match v with
  | JList l => Returned l
  | JStr s => Returned (map (fun c => JStr [c]) s)
  | JDict d => Returned (map (fun kv => JStr (fst kv)) d)
  | _ => Raised TypeError
  end.

(** [str.isspace] on one code point, as [str.strip] and [int] use it. *)
Definition isspace (c : char) : bool :=
  existsb (N.eqb c)
    [9; 10; 11; 12; 13; 28; 29; 30; 31; 32; 133; 160; 5760;
     8192; 8193; 8194; 8195; 8196; 8197; 8198; 8199; 8200; 8201; 8202;
     8232; 8233; 8239; 8287; 12288]%N.

Fixpoint lstrip (s : pystr) : pystr :=
  match s with
  | c :: s' => if isspace c then lstrip s' else s
  | [] => []
  end.

Definition rstrip (s : pystr) : pystr := rev (lstrip (rev s)).

(** [s.strip()] *)
Definition strip (s : pystr) : pystr := rstrip (lstrip s).

Definition is_digit (c : char) : bool := ((48 <=? c) && (c <=? 57))%N.
Definition digit_value (c : char) : Z := Z.of_N c - 48.

(** The value of a run of ASCII digits, most significant first. *)
Definition digits_value (ds : pystr) : Z :=
  fold_left (fun acc c => 10 * acc + digit_value c) ds 0.

(** CPython's default cap on the length of a decimal text that [int]
    converts ([sys.int_info.default_max_str_digits]). *)
Definition int_max_str_digits : nat := 4300.

(** [int] of a run of decimal digits: [ValueError] over the cap. *)
Definition int_of_digits (negative : bool) (ds : pystr) : outcome Z :=
  if (int_max_str_digits <? length ds)%nat then Raised ValueError
  else Returned (if negative then - digits_value ds else digits_value ds).

(** The first code point of every run of ten decimal digits in the
    Unicode database CPython 3.11 carries (version 14.0): the digits of
    a script are consecutive, zero first. *)
Definition decimal_zeros : list char :=
  [48; 1632; 1776; 1984; 2406; 2534; 2662; 2790; 2918; 3046; 3174; 3302;
   3430; 3558; 3664; 3792; 3872; 4160; 4240; 6112; 6160; 6470; 6608; 6784;
   6800; 6992; 7088; 7232; 7248; 42528; 43216; 43264; 43472; 43504; 43600;
   44016; 65296; 66720; 68912; 69734; 69872; 69942; 70096; 70384; 70736;
   70864; 71248; 71360; 71472; 71904; 72016; 72784; 73040; 73120; 92768;
   92864; 93008; 120782; 120792; 120802; 120812; 120822; 123200; 123632;
   125264; 130032]%N.

(** [Py_UNICODE_TODECIMAL]: the value of a decimal digit of any script. *)
Definition to_decimal (c : char) : option N :=
  match List.find (fun zero => (zero <=? c) && (c <? zero + 10))%N decimal_zeros with
  | Some zero => Some (c - zero)%N
  | None => None
  end.

(** [_PyUnicode_TransformDecimalAndSpaceToASCII] on a text with a code
    point over 127: white space over 127 becomes a space and a decimal
    digit its ASCII digit; the result ends in [?] at the first other
    code point that is not below 127. *)
Fixpoint transform_decimal_and_space (s : pystr) : pystr :=
  match s with
  | [] => []
  | c :: s' =>
      if (c <? 127)%N then c :: transform_decimal_and_space s'
      else if isspace c then 32%N :: transform_decimal_and_space s'
      else match to_decimal c with
           | Some d => (48 + d)%N :: transform_decimal_and_space s'
           | None => [63%N]
           end
  end.

(** An ASCII text is taken as it is. *)
Definition to_ascii (s : pystr) : pystr :=
  if forallb (fun c => c <? 128)%N s then s else transform_decimal_and_space s.

(** [Py_ISSPACE], the white space [PyLong_FromString] skips: the
    separators 28 to 31 are not in it. *)
Definition is_c_space (c : char) : bool :=
  ((9 <=? c) && (c <=? 13) || (c =? 32))%N.

Fixpoint skip_c_space (s : pystr) : pystr :=
  match s with
  | c :: s' => if is_c_space c then skip_c_space s' else s
  | [] => []
  end.

(** The scan of [PyLong_FromString] over digits and underscores: the
    digits of the run at the head of [s] and what follows the run;
    [None] for two underscores in a row and for an underscore that ends
    the run. *)
Fixpoint scan_digits (after_underscore : bool) (s : pystr)
  : option (pystr * pystr) :=
  match s with
  | c :: s' =>
      if is_digit c
      then match scan_digits false s' with
           | Some (ds, rest) => Some (c :: ds, rest)
           | None => None
           end
      else if (c =? 95)%N
           then if after_underscore then None else scan_digits true s'
           else if after_underscore then None else Some ([], s)
  | [] => if after_underscore then None else Some ([], [])
  end.

(** [int(s)] for text [s] in base 10 ([PyLong_FromUnicodeObject] and
    [PyLong_FromString]): white space, an optional sign, digits with
    single underscores between them, white space, and nothing else.
    The cap counts the digits, leading zeros too. *)
Definition int_of_str (s : pystr) : outcome Z :=
  let body := skip_c_space (to_ascii s) in
  let '(negative, body) :=
    match body with
    | 45%N :: r => (true, r)
    | 43%N :: r => (false, r)
    | _ => (false, body)
    end in
  match body with
  | 95%N :: _ => Raised ValueError
  | _ =>
      match scan_digits false body with
      | Some (d :: ds, rest) =>
          match skip_c_space rest with
          | [] => int_of_digits negative (d :: ds)
          | _ :: _ => Raised ValueError
          end
      | _ => Raised ValueError
      end
  end.

(** [int(x)] for a float: truncation towards zero. *)
Definition int_of_float (f : spec_float) : outcome Z :=
  match f with
  | S754_zero _ => Returned 0
  | S754_infinity _ => Raised OverflowError
  | S754_nan => Raised ValueError
  | S754_finite s m e =>
      let magnitude := Z.shiftl (Zpos m) e in
      Returned (if s then - magnitude else magnitude)
  end.

(** [int(v)] *)
Definition int (v : json) : outcome Z :=
  match v with
  | JInt z => Returned z
  | JBool b => Returned (if b then 1 else 0)
  | JFloat f => int_of_float f
  | JStr s => int_of_str s
  | JNull | JList _ | JDict _ => Raised TypeError
  end.

(** [sep.join(v)]: every item must be text. *)
Fixpoint join_items (sep : pystr) (items : list json) : outcome pystr :=
  match items with
  | [] => Returned []
  | [JStr s] => Returned s
  | JStr s :: rest =>
      match join_items sep rest with
      | Returned t => Returned (s ++ sep ++ t)
      | Raised e => Raised e
      end
  | _ :: _ => Raised TypeError
  end.

Definition join (sep : pystr) (v : json) : outcome pystr :=
  match iter v with
  | Returned items => join_items sep items
  | Raised e => Raised e
  end.

End Py.

(* ================================================================= *)
(** ** The Taxonomy *)

(** The list [clusters] that [extract_signal_weights] and
    [tag_resume_bullets] both spell out for their prompts. *)
Definition clusters : list pystr :=
  [ str "backend";
    str "frontend";
    str "fullstack";
    str "data_ml";
    str "cloud_devops";
    str "testing_quality";
    str "performance_scalability";
    str "security_reliability";
    str "product_user_focus";
    str "teamwork_communication";
    str "learning_growth";
    str "domain_industry" ].

(* ================================================================= *)
(** ** [list.sort(key=..., reverse=True)] *)

(** Python's sort is stable, and stays so under [reverse=True]: the
    result is ordered by decreasing key and items of equal key keep
    their order.  A stable sort is determined by that, so insertion
    from the right stands for it. *)
Section Sort.
Context {A : Type}.
Variable key : A -> Z.

Fixpoint insert_reverse (x : A) (l : list A) : list A :=
  match l with
  | [] => [x]
  | y :: l' =>
      if key x <? key y then y :: insert_reverse x l' else x :: y :: l'
  end.

Fixpoint sort_reverse (l : list A) : list A :=
  match l with
  | [] => []
  | x :: l' => insert_reverse x (sort_reverse l')
  end.
End Sort.

(* ================================================================= *)
(** ** The Alignment Scorer: the first half of [score_and_adjust_bullets] *)

(** The dict literal the loop appends, with its three fixed keys. *)
Record scored_bullet : Type := {
  bullet_text : json;
  tags : json;
  alignment_score : Z
}.

(** [int(weights.get(tag, 0))] *)
Definition tag_weight (weights tag : json) : outcome Z :=
  (w <~ Py.get_value weights tag (JInt 0) ;; Py.int w)%outcome.

(** [sum(...)] over the generator, from the start value on. *)
Fixpoint sum_weights (weights : json) (items : list json) (acc : Z) : outcome Z :=
  match items with
  | [] => Returned acc
  | tag :: rest =>
      (w <~ tag_weight weights tag ;; sum_weights weights rest (acc + w))%outcome
  end.

(** [sum(int(weights.get(tag, 0)) for tag in tags)] *)
Definition score (weights tags : json) : outcome Z :=
  (items <~ Py.iter tags ;; sum_weights weights items 0)%outcome.

(** One turn of the loop over [tagged_bullets]. *)
Definition score_bullet (weights bullet : json) : outcome scored_bullet :=
  (t <~ Py.get bullet (str "tags") (JList []) ;;
   let tags := Py.or_ t (JList []) in
   score <~ score weights tags ;;
   text <~ Py.get bullet (str "bullet_text") (JStr []) ;;
   Returned {| bullet_text := text; tags := tags; alignment_score := score |})%outcome.

(** The loop: the scored bullets in input order. *)
Fixpoint score_each (weights : json) (tagged_bullets : list json)
  : outcome (list scored_bullet) :=
  match tagged_bullets with
  | [] => Returned []
  | bullet :: rest =>
      (b <~ score_bullet weights bullet ;;
       bs <~ score_each weights rest ;;
       Returned (b :: bs))%outcome
  end.

(** [jd_signals.get("signal_weights", {}) or {}] *)
Definition signal_weights (jd_signals : json) : outcome json :=
  (w <~ Py.get jd_signals (str "signal_weights") (JDict []) ;;
   Returned (Py.or_ w (JDict [])))%outcome.

(** Lines 205 to 219: the value of [scored_bullets] after the sort. *)
Definition scored_bullets (jd_signals : json) (tagged_bullets : list json)
  : outcome (list scored_bullet) :=
  (weights <~ signal_weights jd_signals ;;
   scored <~ score_each weights tagged_bullets ;;
   Returned (sort_reverse alignment_score scored))%outcome.

(** The same before the sort, to speak of the input order. *)
Definition scored_in_input_order (jd_signals : json) (tagged_bullets : list json)
  : outcome (list scored_bullet) :=
  (weights <~ signal_weights jd_signals ;;
   score_each weights tagged_bullets)%outcome.

(* ================================================================= *)
(** ** Searching text *)

(** The rest of [s] after the prefix [p], if [s] starts with [p]. *)
Fixpoint strip_prefix (p s : pystr) : option pystr :=
  match p, s with
  | [], _ => Some s
  | x :: p', y :: s' => if N.eqb x y then strip_prefix p' s' else None
  | _ :: _, [] => None
  end.

Definition starts_with (p s : pystr) : bool :=
  match strip_prefix p s with Some _ => true | None => false end.

(** [s.find(p)]: where [p] first occurs in [s]. *)
Fixpoint find (p s : pystr) : option nat :=
  if starts_with p s then Some O
  else match s with
       | [] => None
       | _ :: s' => option_map S (find p s')
       end.

(** [s.rfind(p)]: where [p] last occurs in [s]. *)
Fixpoint rfind (p s : pystr) : option nat :=
  match s with
  | [] => if starts_with p s then Some O else None
  | _ :: s' =>
      match rfind p s' with
      | Some i => Some (S i)
      | None => if starts_with p s then Some O else None
      end
  end.

(** [s[i:j]] for [i <= j] within [s]. *)
Definition slice (s : pystr) (i j : nat) : pystr := firstn (j - i) (skipn i s).

(** [re.search] with [re.DOTALL] for a pattern [opening .*? closing] of
    two literal texts: group 0 of the match.  The search takes the
    leftmost start.  If no [closing] follows the first [opening], none
    follows a later one either, so the match, if any, starts at the
    first [opening]; the lazy [.*?] stops at the first [closing] after
    it. *)
Definition search_lazy (opening closing text : pystr) : option pystr :=
  match find opening text with
  | None => None
  | Some i =>
      let inner := i + length opening in
      match find closing (skipn inner text) with
      | None => None
      | Some j => Some (slice text i (inner + j + length closing))
      end
  end%nat.

(** The same for [opening .* closing]: the greedy [.*] runs to the last
    [closing]. *)
Definition search_greedy (opening closing text : pystr) : option pystr :=
  match find opening text with
  | None => None
  | Some i =>
      let inner := i + length opening in
      match rfind closing (skipn inner text) with
      | None => None
      | Some j => Some (slice text i (inner + j + length closing))
      end
  end%nat.

(** [s.replace(old, new)] for a non-empty [old]: the occurrences are
    taken from the left and do not overlap.  [skip] counts the
    characters of the current occurrence still to be dropped. *)
Fixpoint replace_from (old new : pystr) (skip : nat) (s : pystr) : pystr :=
  match s with
  | [] => []
  | c :: s' =>
      match skip with
      | S k => replace_from old new k s'
      | O =>
          if starts_with old s
          then new ++ replace_from old new (length old - 1) s'
          else c :: replace_from old new O s'
      end
  end.

Definition replace (old new s : pystr) : pystr := replace_from old new O s.

(* ================================================================= *)
(** ** Extraction: the last lines of [score_and_adjust_bullets] *)

Definition BEGIN_DOCUMENT : pystr := str "\documentclass".
Definition END_DOCUMENT : pystr := str "\end{document}".
Definition FENCE : pystr := str "```".
Definition FENCE_LATEX : pystr := str "```latex".

(** [re.search(r"\\documentclass.*?\\end\{document\}", clean_text, re.DOTALL)] *)
Definition search_document (text : pystr) : option pystr :=
  search_lazy BEGIN_DOCUMENT END_DOCUMENT text.

(** [.replace("```latex", "").replace("```", "").strip()] *)
Definition strip_fences (text : pystr) : pystr :=
  Py.strip (replace FENCE [] (replace FENCE_LATEX [] text)).

(** Lines 304 to 311; [response_text] is [response.text], which may be
    [None]. *)
Definition clean_text (response_text : option pystr) : pystr :=
  let clean_text := match response_text with Some t => t | None => [] end in
  let clean_text :=
    match search_document clean_text with
    | Some group0 => group0
    | None => clean_text
    end in
  strip_fences clean_text.

(* ================================================================= *)
(** ** [json.loads] *)

(** The standard decoder in its default configuration, as the
    accelerated scanner of CPython behaves on text: RFC 8259 documents,
    the constants [NaN], [Infinity] and [-Infinity], strict strings, the
    last of several equal keys winning.  A document that is not valid
    raises [JSONDecodeError].  The default [parse_int] is [int], so an
    integer literal longer than [Py.int_max_str_digits] raises the
    [ValueError] of [int] (the [json] documentation notes this limit
    for Python 3.11 and later).  The interpreter's stack and memory
    limits are not part of the model. *)
Module Json.

Inductive parsed (A : Type) : Type :=
| Parsed (a : A) (rest : pystr)
| Failed (e : exn)
| OutOfFuel.
Arguments Parsed {A} a rest.
Arguments Failed {A} e.
Arguments OutOfFuel {A}.

(** [WHITESPACE]: space, tab, line feed, carriage return. *)
Definition is_ws (c : char) : bool :=
  ((c =? 32) || (c =? 9) || (c =? 10) || (c =? 13))%N.

Fixpoint skip_ws (s : pystr) : pystr :=
  match s with
  | c :: s' => if is_ws c then skip_ws s' else s
  | [] => []
  end.

(** *** Strings *)

Definition hex_value (c : char) : option N :=
  if ((48 <=? c) && (c <=? 57))%N then Some (c - 48)%N
  else if ((97 <=? c) && (c <=? 102))%N then Some (c - 87)%N
  else if ((65 <=? c) && (c <=? 70))%N then Some (c - 55)%N
  else None.

Definition hex4 (a b c d : char) : option N :=
  match hex_value a, hex_value b, hex_value c, hex_value d with
  | Some x, Some y, Some z, Some w => Some (((x * 16 + y) * 16 + z) * 16 + w)%N
  | _, _, _, _ => None
  end.

Definition is_high_surrogate (c : N) : bool := ((55296 <=? c) && (c <=? 56319))%N.
Definition is_low_surrogate (c : N) : bool := ((56320 <=? c) && (c <=? 57343))%N.
Definition join_surrogates (hi lo : N) : N :=
  (65536 + ((hi - 55296) * 1024 + (lo - 56320)))%N.

(** The character a one-letter escape stands for ([BACKSLASH]). *)
Definition escape_char (c : char) : option char :=
  if (c =? 34)%N then Some 34%N          (* quote *)
  else if (c =? 92)%N then Some 92%N     (* backslash *)
  else if (c =? 47)%N then Some 47%N     (* solidus *)
  else if (c =? 98)%N then Some 8%N      (* b *)
  else if (c =? 102)%N then Some 12%N    (* f *)
  else if (c =? 110)%N then Some 10%N    (* n *)
  else if (c =? 114)%N then Some 13%N    (* r *)
  else if (c =? 116)%N then Some 9%N     (* t *)
  else None.

(** [scanstring] in strict mode, from just after the opening quote;
    [acc] holds the characters read so far, last first. *)
Fixpoint scanstring (s : pystr) (acc : pystr) : parsed pystr :=
  match s with
  | [] => Failed JSONDecodeError
  | c :: r =>
      if (c =? 34)%N then Parsed (rev acc) r
      else if (c =? 92)%N then
        match r with
        | [] => Failed JSONDecodeError
        | e :: r1 =>
            if (e =? 117)%N then
              match r1 with
              | h1 :: h2 :: h3 :: h4 :: r2 =>
                  match hex4 h1 h2 h3 h4 with
                  | None => Failed JSONDecodeError
                  | Some u =>
                      match r2 with
                      | b :: v :: g1 :: g2 :: g3 :: g4 :: r3 =>
                          if is_high_surrogate u && (b =? 92)%N && (v =? 117)%N then
                            match hex4 g1 g2 g3 g4 with
                            | None => Failed JSONDecodeError
                            | Some u2 =>
                                if is_low_surrogate u2
                                then scanstring r3 (join_surrogates u u2 :: acc)
                                else scanstring r2 (u :: acc)
                            end
                          else scanstring r2 (u :: acc)
                      | _ => scanstring r2 (u :: acc)
                      end
                  end
              | _ => Failed JSONDecodeError
              end
            else
              match escape_char e with
              | Some x => scanstring r1 (x :: acc)
              | None => Failed JSONDecodeError
              end
        end
      else if (c <? 32)%N then Failed JSONDecodeError
      else scanstring r (c :: acc)
  end.

(** *** Numbers *)

Fixpoint span_digits (s : pystr) : pystr * pystr :=
  match s with
  | c :: s' =>
      if Py.is_digit c
      then let '(ds, rest) := span_digits s' in (c :: ds, rest)
      else ([], s)
  | [] => ([], [])
  end.

(** [float(text)] for the decimal value [m * 10^e10], [m >= 0], with
    the sign given apart: the nearest binary64 value, ties to even.  A
    quotient is taken with more bits than the format keeps, and what is
    left over only tells an exact quotient from an inexact one. *)
Definition float_of_decimal (negative : bool) (m e10 : Z) : spec_float :=
  match m with
  | Zpos _ =>
      if 0 <=? e10 then
        match m * 10 ^ e10 with
        | Zpos n => binary_round 53 1024 negative n 0
        | _ => S754_nan
        end
      else
        let d := 10 ^ (- e10) in
        let s := Z.max 0 (64 + Z.log2 d - Z.log2 m) in
        let n := m * 2 ^ s in
        binary_round_aux 53 1024 negative (n / d) (- s)
          (if n mod d =? 0 then loc_Exact else loc_Inexact Lt)
  | _ => S754_zero negative
  end.

(** The parts of a number, each with what follows it.  A minus sign: *)
Definition take_sign (s : pystr) : bool * pystr :=
  match s with
  | c :: r => if (c =? 45)%N then (true, r) else (false, s)
  | [] => (false, s)
  end.

(** The integer part: a lone zero, or digits that do not start with
    one. *)
Definition take_integer (s : pystr) : option (pystr * pystr) :=
  match s with
  | [] => None
  | c :: r =>
      if negb (Py.is_digit c) then None
      else if (c =? 48)%N then Some ([c], r)
      else let '(ds, rest) := span_digits r in Some (c :: ds, rest)
  end.

(** The fraction: a point and at least one digit; its digits. *)
Definition take_fraction (s : pystr) : pystr * pystr :=
  match s with
  | dot :: d :: _ =>
      if (dot =? 46)%N && Py.is_digit d then span_digits (tl s) else ([], s)
  | _ => ([], s)
  end.

(** The exponent: [e] or [E], an optional sign and at least one digit;
    without a digit there is no exponent and nothing is taken. *)
Definition take_exponent (s : pystr) : option Z * pystr :=
  match s with
  | e :: r =>
      if (e =? 101)%N || (e =? 69)%N then
        let '(minus, r') := 
          match r with
          | sg :: r' =>
              if (sg =? 45)%N then (true, r')
              else if (sg =? 43)%N then (false, r')
              else (false, r)
          | [] => (false, r)
          end in
        match span_digits r' with
        | ([], _) => (None, s)
        | (ds, rest) =>
            (Some (if minus then - Py.digits_value ds else Py.digits_value ds),
             rest)
        end
      else (None, s)
  | [] => (None, s)
  end.

(** The number at the head of [s]: [int] of the text when it has
    neither fraction nor exponent, [float] of it otherwise. *)
Definition match_number (s : pystr) : parsed json :=
  let '(negative, s1) := take_sign s in
  match take_integer s1 with
  | None => Failed JSONDecodeError
  | Some (integer, s2) =>
      let '(frac, s3) := take_fraction s2 in
      let '(exponent, s4) := take_exponent s3 in
      match frac, exponent with
      | [], None =>
          match Py.int_of_digits negative integer with
          | Returned z => Parsed (JInt z) s4
          | Raised e => Failed e
          end
      | _, _ =>
          let e10 := match exponent with Some e => e | None => 0 end in
          Parsed (JFloat (float_of_decimal negative
                            (Py.digits_value (integer ++ frac))
                            (e10 - Z.of_nat (length frac)))) s4
      end
  end.

(** *** Constants *)

Definition constants : list (pystr * json) :=
  [ (str "null", JNull);
    (str "true", JBool true);
    (str "false", JBool false);
    (str "NaN", JFloat S754_nan);
    (str "Infinity", JFloat (S754_infinity false));
    (str "-Infinity", JFloat (S754_infinity true)) ].

Fixpoint match_constant (table : list (pystr * json)) (s : pystr)
  : option (json * pystr) :=
  match table with
  | [] => None
  | (name, v) :: table' =>
      match strip_prefix name s with
      | Some rest => Some (v, rest)
      | None => match_constant table' s
      end
  end.

(** *** Values, arrays and objects *)

(** [scan_once] at the head of [s]; [parse_array] and [parse_object]
    from the head of an item on, with the items read so far.  Each call
    spends one unit of [fuel]. *)
Fixpoint scan_once (fuel : nat) (s : pystr) : parsed json :=
  match fuel with
  | O => OutOfFuel
  | S fuel' =>
      match s with
      | [] => Failed JSONDecodeError
      | c :: r =>
          if (c =? 34)%N then
            match scanstring r [] with
            | Parsed k rest => Parsed (JStr k) rest
            | Failed e => Failed e
            | OutOfFuel => OutOfFuel
            end
          else if (c =? 123)%N then
            match skip_ws r with
            | c' :: r' =>
                if (c' =? 125)%N then Parsed (JDict []) r'
                else parse_object fuel' (c' :: r') []
            | [] => parse_object fuel' [] []
            end
          else if (c =? 91)%N then
            match skip_ws r with
            | c' :: r' =>
                if (c' =? 93)%N then Parsed (JList []) r'
                else parse_array fuel' (c' :: r') []
            | [] => parse_array fuel' [] []
            end
          else
            match match_constant constants s with
            | Some (v, rest) => Parsed v rest
            | None => match_number s
            end
      end
  end

with parse_array (fuel : nat) (s : pystr) (items : list json) : parsed json :=
  match fuel with
  | O => OutOfFuel
  | S fuel' =>
      match scan_once fuel' s with
      | Parsed v rest =>
          match skip_ws rest with
          | c :: r =>
              if (c =? 93)%N then Parsed (JList (rev (v :: items))) r
              else if (c =? 44)%N then parse_array fuel' (skip_ws r) (v :: items)
              else Failed JSONDecodeError
          | [] => Failed JSONDecodeError
          end
      | Failed e => Failed e
      | OutOfFuel => OutOfFuel
      end
  end

with parse_object (fuel : nat) (s : pystr) (pairs : dict) : parsed json :=
  match fuel with
  | O => OutOfFuel
  | S fuel' =>
      match s with
      | [] => Failed JSONDecodeError
      | q :: r0 =>
          if negb (q =? 34)%N then Failed JSONDecodeError
          else
            match scanstring r0 [] with
            | Parsed key rest =>
                match skip_ws rest with
                | colon :: r1 =>
                    if negb (colon =? 58)%N then Failed JSONDecodeError
                    else
                      match scan_once fuel' (skip_ws r1) with
                      | Parsed v rest' =>
                          let pairs' := assoc_set key v pairs in
                          match skip_ws rest' with
                          | c :: r2 =>
                              if (c =? 125)%N then Parsed (JDict pairs') r2
                              else if (c =? 44)%N
                              then parse_object fuel' (skip_ws r2) pairs'
                              else Failed JSONDecodeError
                          | [] => Failed JSONDecodeError
                          end
                      | Failed e => Failed e
                      | OutOfFuel => OutOfFuel
                      end
                | [] => Failed JSONDecodeError
                end
            | Failed e => Failed e
            | OutOfFuel => OutOfFuel
            end
      end
  end.

(** Fuel that [scan_once] cannot use up on [s]. *)
Definition enough_fuel (s : pystr) : nat := 2 * length s + 1.

(** [json.loads(s)] for text [s]: no byte order mark, one value, white
    space around it and nothing else.  The scan starts with
    [enough_fuel], and the last case below does not arise
    ([loads_has_enough_fuel]). *)
Definition loads (s : pystr) : outcome json :=
  if starts_with [65279%N] s then Raised JSONDecodeError
  else
    let s := skip_ws s in
    match scan_once (enough_fuel s) s with
    | Parsed v rest =>
        match skip_ws rest with
        | [] => Returned v
        | _ :: _ => Raised JSONDecodeError
        end
    | Failed e => Raised e
    | OutOfFuel => Raised JSONDecodeError
    end.

End Json.

(* ================================================================= *)
(** ** The Resilient Parser: [safe_json_loads] *)

(** [re.search(r"\{.*\}", raw_text, re.DOTALL)] *)
Definition search_braces (raw_text : pystr) : option pystr :=
  search_greedy (str "{") (str "}") raw_text.

(** The line [print(f"[WARN] Failed to parse JSON for {context_label}")]. *)
Definition warning (context_label : pystr) : pystr :=
  str "[WARN] Failed to parse JSON for " ++ context_label.

(** The two statements every failing path ends in. *)
Definition warn_and_return_None (context_label : pystr) : run json :=
  (print (warning context_label) ;; ret JNull)%run.

(** [None] is returned as [JNull]: Python has one [None] for "no
    result" and for a decoded [null].  Each [try] catches
    [JSONDecodeError] and nothing else. *)
Definition safe_json_loads (raw_text context_label : pystr) : run json :=
  match Json.loads raw_text with
  | Returned v => ret v
  | Raised JSONDecodeError =>
      match search_braces raw_text with
      | Some group0 =>
          match Json.loads group0 with
          | Returned v => ret v
          | Raised JSONDecodeError => warn_and_return_None context_label
          | Raised e => raise e
          end
      | None => warn_and_return_None context_label
      end
  | Raised e => raise e
  end.

(* ================================================================= *)
(** ** The Signal Profiler: [extract_signal_weights] after the oracle call *)

(** [response_text] is the oracle's [response.text]. *)
Definition extract_signal_weights (response_text : pystr) : run json :=
  (print (NEWLINE :: str "[1/4] Extracting and weighting JD signals...") ;;
   data <- safe_json_loads response_text (str "JD signals") ;;
   if negb (Py.truthy data) then ret JNull
   else
     data <- lift (Py.setdefault data (str "signal_weights") (JDict [])) ;;
     data <- lift (Py.setdefault data (str "top_5_signals") (JList [])) ;;
     data <- lift (Py.setdefault data (str "top_keywords") (JList [])) ;;
     data <- lift (Py.setdefault data (str "domain_phrases") (JList [])) ;;
     ret data)%run.

(* ================================================================= *)
(** ** The Unit Tagger: [tag_resume_bullets] after the oracle call *)

Definition tag_resume_bullets (response_text : pystr) : run (list json) :=
  (print (str "[2/4] Semantically tagging resume bullets...") ;;
   data <- safe_json_loads response_text (str "bullet tagging") ;;
   if negb (Py.truthy data) then ret []
   else
     tagged <- lift (Py.get data (str "tagged_bullets") (JList [])) ;;
     match tagged with
     | JList l => ret l
     | _ => ret []
     end)%run.

(* ================================================================= *)
(** ** [score_and_adjust_bullets] and the steps of [main] around it *)

(** [", ".join(jd_signals.get(key, []))] *)
Definition joined (jd_signals : json) (key : pystr) : outcome pystr :=
  (v <~ Py.get jd_signals key (JList []) ;; Py.join (str ", ") v)%outcome.

(** The first integer whose decimal text is longer than the cap: [str]
    and [repr] of an integer raise [ValueError] from it on. *)
Definition int_max_str_value : Z := 10 ^ Z.of_nat Py.int_max_str_digits.

(** Whether [json.dumps] gets through a value: it writes every integer
    with [int.__repr__], which the cap bounds; texts, floats ([NaN] and
    the infinities too with the default [allow_nan]) and the constants
    are always written. *)
Fixpoint dumps_writes (v : json) : bool :=
  match v with
  | JInt z => Z.abs z <? int_max_str_value
  | JList l => forallb dumps_writes l
  | JDict d => forallb (fun kv => dumps_writes (snd kv)) d
  | JNull | JBool _ | JFloat _ | JStr _ => true
  end.

(** [json.dumps(scored_bullets, indent=2)], as far as it can raise; the
    text it returns goes into the prompt only. *)
Definition dumps_scored_bullets (scored : list scored_bullet) : outcome unit :=
  if forallb (fun b => dumps_writes (bullet_text b)
                       && dumps_writes (tags b)
                       && dumps_writes (JInt (alignment_score b))) scored
  then Returned tt
  else Raised ValueError.

(** The whole function.  The prompt is built from [scored_bullets] and
    the three joined fields and goes to the oracle; [response_text] is
    what the oracle answers. *)
Definition score_and_adjust_bullets
    (response_text : option pystr) (jd_signals : json) (tagged_bullets : list json)
  : run pystr :=
  (print (str "[3/4] Computing dynamic alignment scores and executing LaTeX adjustments...") ;;
   scored <- lift (scored_bullets jd_signals tagged_bullets) ;;
   _ <- lift (dumps_scored_bullets scored) ;;
   _ <- lift (joined jd_signals (str "top_5_signals")) ;;
   _ <- lift (joined jd_signals (str "top_keywords")) ;;
   _ <- lift (joined jd_signals (str "domain_phrases")) ;;
   ret (clean_text response_text))%run.

(** [main] from "Step 2: Tag Bullets" up to and including the Scorer's
    part of step 3, for the profile [jd_signals] step 1 has produced:
    what reaches the rewrite prompt as the ranking. *)
Definition main_tag_and_score (jd_signals : json) (tagger_response_text : pystr)
  : run (list scored_bullet) :=
  (tagged_bullets <- tag_resume_bullets tagger_response_text ;;
   match tagged_bullets with
   | [] => print (str "[WARN] No tagged bullets returned. Tailoring will be more generic.")
   | _ :: _ => ret tt
   end ;;
   print (NEWLINE :: str "Pausing for 10 seconds for API Rate Limits...") ;;
   print (str "[3/4] Computing dynamic alignment scores and executing LaTeX adjustments...") ;;
   lift (scored_bullets jd_signals tagged_bullets))%run.

(* ================================================================= *)
(** ** The data model of the specification, seen in decoded values *)

Definition is_text (v : json) : bool :=
  match v with JStr _ => true | _ => false end.

Definition is_int (v : json) : bool :=
  match v with JInt _ => true | _ => false end.

(** A weights mapping: every value is an integer. *)
Definition int_valued (w : dict) : bool := forallb (fun kv => is_int (snd kv)) w.

(** A TopicProfile as far as the Scorer reads it: a record whose
    [signal_weights], when present, is a weights mapping. *)
Definition weighted_profile (jd_signals : json) : bool :=
  match jd_signals with
  | JDict d =>
      match assoc_get (str "signal_weights") d with
      | None => true
      | Some (JDict w) => int_valued w
      | Some _ => false
      end
  | _ => false
  end.

(** A tagged unit: a record whose [tags], when present, is a list of
    texts. *)
Definition tagged_unit (bullet : json) : bool :=
  match bullet with
  | JDict d =>
      match assoc_get (str "tags") d with
      | None => true
      | Some (JList l) => forallb is_text l
      | Some _ => false
      end
  | _ => false
  end.

(** The field [key] of a record, [default] when it is absent. *)
Definition field (record : json) (key : pystr) (default : json) : json :=
  match record with
  | JDict d => match assoc_get key d with Some v => v | None => default end
  | _ => default
  end.

Fixpoint texts (l : list json) : list pystr :=
  match l with
  | JStr s :: l' => s :: texts l'
  | _ :: l' => texts l'
  | [] => []
  end.

(** The tags a value carries, when it is a list of texts. *)
Definition tag_names (tags : json) : list pystr :=
  match tags with JList l => texts l | _ => [] end.

Definition tags_of (bullet : json) : list pystr :=
  tag_names (field bullet (str "tags") (JList [])).

Definition weights_of (jd_signals : json) : dict :=
  match field jd_signals (str "signal_weights") (JDict []) with
  | JDict w => w
  | _ => []
  end.

(** [weights[tag]], and 0 for a tag the mapping does not have. *)
Definition weight (w : dict) (tag : pystr) : Z :=
  match assoc_get tag w with Some (JInt z) => z | _ => 0 end.

(** The sum of [weights[tag]] over the tags. *)
Definition total_weight (w : dict) (tag_list : list pystr) : Z :=
  fold_right Z.add 0 (map (weight w) tag_list).

(** A weights mapping, a tag list, a unit and a profile as values. *)
Definition weights_dict (w : list (pystr * Z)) : dict :=
  map (fun kv => (fst kv, JInt (snd kv))) w.

Definition tag_list (names : list pystr) : json := JList (map JStr names).

Definition unit_of (text : pystr) (names : list pystr) : json :=
  JDict [(str "bullet_text", JStr text); (str "tags", tag_list names)].

Definition profile_of (w : list (pystr * Z)) : json :=
  JDict [(str "signal_weights", JDict (weights_dict w))].

(** What scoring makes of one tagged unit: text and tags as they are,
    and the score. *)
Definition scored_unit (w : dict) (bullet : json) : scored_bullet :=
  {| bullet_text := field bullet (str "bullet_text") (JStr []);
     tags := field bullet (str "tags") (JList []);
     alignment_score := total_weight w (tags_of bullet) |}.

(** Tags that are 1 to 3 distinct Taxonomy identifiers. *)
Definition taxonomy_tags (tags : json) : Prop :=
  exists names,
    tags = tag_list names /\
    (forall t, In t names -> In t clusters) /\
    NoDup names /\
    (1 <= length names <= 3)%nat.

(** A ScoredUnit whose tags are. *)
Definition taxonomy_closed (b : scored_bullet) : Prop := taxonomy_tags (tags b).

(** Membership in a list of names, decided. *)
Definition mem (t : pystr) (l : list pystr) : bool := existsb (str_eqb t) l.

(** The ranking is by decreasing score. *)
Definition descending (l : list scored_bullet) : Prop :=
  StronglySorted (fun a b => alignment_score b <= alignment_score a) l.

Definition has_score (s : Z) (b : scored_bullet) : bool := alignment_score b =? s.

(* ================================================================= *)
(** ** Example inputs *)

(** The units of the ranking example: scores 5, 9, 5, 3 in input order. *)
Definition ranking_example_profile : json :=
  profile_of [(str "backend", 5); (str "frontend", 9); (str "data_ml", 3)].

Definition ranking_example_units : list json :=
  [ unit_of (str "first") [str "backend"];
    unit_of (str "second") [str "frontend"];
    unit_of (str "third") [str "backend"];
    unit_of (str "fourth") [str "data_ml"] ].

(** A unit with a tag outside the Taxonomy, as the oracle may return it. *)
Definition off_taxonomy_units : list json :=
  [ unit_of (str "Built a ledger") [str "backend"; str "blockchain"] ].

Definition off_taxonomy_profile : json := profile_of [(str "backend", 9)].

(** A unit with no [tags] and one with no [bullet_text], among others. *)
Definition sparse_units : list json :=
  [ JDict [(str "bullet_text", JStr (str "Led a team"))];
    unit_of (str "Built APIs") [str "backend"; str "cloud_devops"];
    JDict [(str "tags", tag_list [str "frontend"])] ].

(** The extraction as the specification words it, for comparison with
    [clean_text]: the span runs greedily, to the last end marker. *)
Definition clean_text_greedy (response_text : option pystr) : pystr :=
  let text := match response_text with Some t => t | None => [] end in
  strip_fences
    match search_greedy BEGIN_DOCUMENT END_DOCUMENT text with
    | Some span => span
    | None => text
    end.

(** A reply that quotes a document and then goes on to another end
    marker. *)
Definition two_end_markers_reply : pystr :=
  str "\documentclass{article} A \end{document} as asked; never write \end{document} twice".




(* ================================================================= *)
(** ** What the decoder's steps may answer *)

(** A step on a text of length [n] behaves when it does not run out of
    fuel, fails only with [JSONDecodeError] or the [ValueError] of
    [int], and leaves less than it was given. *)
Definition behaves {A : Type} (r : Json.parsed A) (n : nat) : Prop :=
  match r with
  | Json.Parsed _ rest => (length rest < n)%nat
  | Json.Failed e => e = JSONDecodeError \/ e = ValueError
  | Json.OutOfFuel => False
  end.

(* ================================================================= *)
(** ** The wording of the claims about the parser and its callers *)

(** The text holds no region that opens with a brace and closes with
    one. *)
Definition no_brace_region (raw_text : pystr) : Prop :=
  forall before inside after,
    raw_text <> before ++ str "{" ++ inside ++ str "}" ++ after.

(** The text of the parser-fallback example: a note, a line with the
    record, a closing word. *)
Definition fallback_example_text : pystr :=
  str "Note: here is the result" ++ [NEWLINE]
  ++ str "{" ++ [DQUOTE] ++ str "a" ++ [DQUOTE] ++ str ": 1, "
  ++ [DQUOTE] ++ str "b" ++ [DQUOTE] ++ str ": [2,3]}" ++ [NEWLINE]
  ++ str "Thanks".

Definition fallback_example_record : json :=
  JDict [(str "a", JInt 1); (str "b", JList [JInt 2; JInt 3])].

(** An integer literal one digit longer than [int] converts. *)
Definition long_integer_text : pystr :=
  repeat 49%N (S Py.int_max_str_digits).

(** The four keys of a profile and the empty containers they default
    to, in the order of the [setdefault] calls. *)
Definition profile_defaults : list (pystr * json) :=
  [ (str "signal_weights", JDict []);
    (str "top_5_signals", JList []);
    (str "top_keywords", JList []);
    (str "domain_phrases", JList []) ].


(** A profiler reply that lacks only [domain_phrases]. *)
Definition profile_reply_without_phrases : pystr :=
  str "{" ++ [DQUOTE] ++ str "signal_weights" ++ [DQUOTE] ++ str ": {"
  ++ [DQUOTE] ++ str "backend" ++ [DQUOTE] ++ str ": 9}, "
  ++ [DQUOTE] ++ str "top_5_signals" ++ [DQUOTE] ++ str ": ["
  ++ [DQUOTE] ++ str "backend" ++ [DQUOTE] ++ str "], "
  ++ [DQUOTE] ++ str "top_keywords" ++ [DQUOTE] ++ str ": []}".


(* ================================================================= *)
(** ** [compile_latex]: the names it derives from the company name *)

(** The class [[A-Za-z0-9_-]] of the pattern. *)
Definition is_name_char (c : char) : bool :=
  ((65 <=? c) && (c <=? 90) || (97 <=? c) && (c <=? 122)
   || (48 <=? c) && (c <=? 57) || (c =? 95) || (c =? 45))%N.

(** [re.sub(r"[^A-Za-z0-9_-]+", "-", text)]: every maximal run of
    characters outside the class becomes one hyphen.  [in_run] tells
    that the character before was outside it. *)
Fixpoint sub_runs (in_run : bool) (text : pystr) : pystr :=
  match text with
  | [] => []
  | c :: text' =>
      if is_name_char c then c :: sub_runs false text'
      else if in_run then sub_runs true text'
      else 45%N :: sub_runs true text'
  end.

(** [clean_cn = re.sub(r"[^A-Za-z0-9_-]+", "-", company_name.strip())] *)
Definition clean_cn (company_name : pystr) : pystr :=
  sub_runs false (Py.strip company_name).

(** [jobname = f"resume_{clean_cn}"] *)
Definition jobname (company_name : pystr) : pystr :=
  str "resume_" ++ clean_cn company_name.

(** The argument list handed to [subprocess.run]. *)
Definition pdflatex_command (company_name : pystr) : list pystr :=
  [ str "pdflatex"; str "-interaction=nonstopmode";
    str "-jobname=" ++ jobname company_name; str "tailored_resume.tex" ].

(** The files the clean-up loop looks for: [f"{jobname}{ext}"] for the
    three extensions. *)
Definition files_to_rm (company_name : pystr) : list pystr :=
  map (fun ext => jobname company_name ++ ext)
      [str ".aux"; str ".log"; str ".out"].

(* ================================================================= *)
(** ** [main]: the clipboard guard and the word count *)

From Stdlib Require DecimalString.

(** [s.split()]: the maximal runs of characters that are not white
    space.  [word] holds the run being read, last character first. *)
Fixpoint split_words (word : pystr) (s : pystr) : list pystr :=
  match s with
  | [] => match word with [] => [] | _ :: _ => [rev word] end
  | c :: s' =>
      if Py.isspace c then
        match word with
        | [] => split_words [] s'
        | _ :: _ => rev word :: split_words [] s'
        end
      else split_words (c :: word) s'
  end.

Definition str_split (s : pystr) : list pystr := split_words [] s.

(** [str(n)] for a length. *)
Definition decimal (n : nat) : pystr :=
  str (DecimalString.NilEmpty.string_of_uint (Nat.to_uint n)).

(** The statements of [main] between [pyperclip.paste()] and step 1:
    an empty clipboard ends the run, otherwise the words are counted. *)
Definition main_capture (jd : pystr) : run unit :=
  match Py.strip jd with
  | [] => (print (str "Error: Clipboard is empty.") ;; raise SystemExit)%run
  | _ :: _ =>
      print (str "Captured " ++ decimal (length (str_split jd))
             ++ str " words." ++ [NEWLINE])
  end.

(* ================================================================= *)
(** ** More example inputs *)

(** A tagger reply with narration around the record. *)
Definition tagger_reply_wrapped_before : pystr :=
  str "Sure! Here are the tagged bullets:" ++ [NEWLINE].

Definition tagger_reply_wrapped_inside : pystr :=
  [DQUOTE] ++ str "tagged_bullets" ++ [DQUOTE] ++ str ": [{"
  ++ [DQUOTE] ++ str "bullet_text" ++ [DQUOTE] ++ str ": "
  ++ [DQUOTE] ++ str "Built APIs" ++ [DQUOTE] ++ str ", "
  ++ [DQUOTE] ++ str "tags" ++ [DQUOTE] ++ str ": ["
  ++ [DQUOTE] ++ str "backend" ++ [DQUOTE] ++ str "]}]".

Definition tagger_reply_wrapped_after : pystr :=
  [NEWLINE] ++ str "Let me know if you need anything else.".

(** Whether a record has the key. *)
Definition has_key (key : pystr) (d : dict) : bool :=
  match assoc_get key d with Some _ => true | None => false end.

Definition is_record (v : json) : bool :=
  match v with JDict _ => true | _ => false end.

(* ================================================================= *)
(** ** The profile guard of [main] *)


(* ================================================================= *)
(** * Proofs *)

(** ** Text and association lists *)

Lemma str_eqb_spec (a b : pystr) : reflect (a = b) (str_eqb a b).
Proof.
  revert b; induction a as [|x a IH]; intros [|y b]; simpl;
    try (constructor; congruence).
  destruct (N.eqb_spec x y) as [->|Hxy]; simpl.
  - destruct (IH b) as [->|Hab]; constructor; congruence.
  - constructor; congruence.
Qed.

Lemma str_eqb_refl (a : pystr) : str_eqb a a = true.
Proof. destruct (str_eqb_spec a a); congruence. Qed.

Lemma str_eqb_eq (a b : pystr) : str_eqb a b = true <-> a = b.
Proof. destruct (str_eqb_spec a b); split; congruence. Qed.

Lemma str_eqb_neq (a b : pystr) : str_eqb a b = false <-> a <> b.
Proof. destruct (str_eqb_spec a b); split; congruence. Qed.


Lemma assoc_get_weights_dict (w : list (pystr * Z)) (k : pystr) :
  assoc_get k (weights_dict w) = option_map JInt (assoc_get k w).
Proof.
  induction w as [|[k' z] w IH]; simpl; [reflexivity|].
  destruct (str_eqb k k'); [reflexivity | exact IH].
Qed.

Lemma int_valued_weights_dict (w : list (pystr * Z)) :
  int_valued (weights_dict w) = true.
Proof. induction w as [|[k z] w IH]; simpl; auto. Qed.

Lemma int_valued_get (w : dict) (k : pystr) (v : json) :
  int_valued w = true -> assoc_get k w = Some v -> is_int v = true.
Proof.
  induction w as [|[k' v'] w IH]; simpl; [discriminate|].
  intros Hw Hget. apply andb_prop in Hw as [Hv Hw].
  destruct (str_eqb k k'); [injection Hget as <-; exact Hv | now apply IH].
Qed.

(* ================================================================= *)
(** ** The stable sort *)

Section SortFacts.
Context {A : Type}.
Variable key : A -> Z.

Let ge_key (a b : A) : Prop := key b <= key a.

Lemma insert_reverse_perm (x : A) (l : list A) :
  Permutation (insert_reverse key x l) (x :: l).
Proof.
  induction l as [|y l IH]; simpl; [reflexivity|].
  destruct (key x <? key y); [|reflexivity].
  rewrite IH. apply perm_swap.
Qed.

Lemma sort_reverse_perm (l : list A) : Permutation (sort_reverse key l) l.
Proof.
  induction l as [|x l IH]; simpl; [reflexivity|].
  rewrite insert_reverse_perm. now constructor.
Qed.

Lemma insert_reverse_sorted (x : A) (l : list A) :
  StronglySorted ge_key l -> StronglySorted ge_key (insert_reverse key x l).
Proof.
  induction 1 as [|y l Hl IH Hy]; simpl.
  - repeat constructor.
  - destruct (Z.ltb_spec (key x) (key y)) as [Hlt|Hge].
    + constructor; [exact IH|].
      eapply Permutation_Forall; [symmetry; apply insert_reverse_perm|].
      constructor; [unfold ge_key; lia | exact Hy].
    + constructor; [now constructor|].
      constructor; [exact Hge|].
      eapply Forall_impl; [|exact Hy]. unfold ge_key; intros; lia.
Qed.

Lemma sort_reverse_sorted (l : list A) :
  StronglySorted ge_key (sort_reverse key l).
Proof.
  induction l as [|x l IH]; simpl; [constructor|].
  now apply insert_reverse_sorted.
Qed.

(** Items of one key keep their order: the sort is stable. *)
Lemma insert_reverse_stable (s : Z) (x : A) (l : list A) :
  filter (fun a => key a =? s) (insert_reverse key x l)
  = filter (fun a => key a =? s) (x :: l).
Proof.
  induction l as [|y l IH]; simpl; [reflexivity|].
  destruct (Z.ltb_spec (key x) (key y)) as [Hlt|Hge]; [|reflexivity].
  simpl. rewrite IH. simpl.
  destruct (Z.eqb_spec (key x) s), (Z.eqb_spec (key y) s);
    try reflexivity; lia.
Qed.

Lemma sort_reverse_stable (s : Z) (l : list A) :
  filter (fun a => key a =? s) (sort_reverse key l)
  = filter (fun a => key a =? s) l.
Proof.
  induction l as [|x l IH]; simpl; [reflexivity|].
  rewrite insert_reverse_stable. simpl. now rewrite IH.
Qed.
End SortFacts.

(* ================================================================= *)
(** ** The Alignment Scorer on well-formed inputs *)

Lemma texts_map (l : list json) :
  forallb is_text l = true -> map JStr (texts l) = l.
Proof.
  induction l as [|v l IH]; simpl; [reflexivity|].
  intros H. apply andb_prop in H as [Hv Hl].
  destruct v; try discriminate. simpl. now rewrite IH.
Qed.

Lemma texts_map_JStr (names : list pystr) : texts (map JStr names) = names.
Proof. induction names as [|t names IH]; simpl; [reflexivity | now rewrite IH]. Qed.

Lemma forallb_is_text_map (names : list pystr) :
  forallb is_text (map JStr names) = true.
Proof. induction names; simpl; auto. Qed.

Lemma tag_weight_text (w : dict) (t : pystr) :
  int_valued w = true -> tag_weight (JDict w) (JStr t) = Returned (weight w t).
Proof.
  intros Hw. unfold tag_weight, weight, Py.get_value.
  destruct (assoc_get t w) as [v|] eqn:Hget; simpl; [|reflexivity].
  pose proof (int_valued_get w t v Hw Hget) as Hv.
  destruct v; try discriminate. reflexivity.
Qed.

Lemma sum_weights_texts (w : dict) (names : list pystr) (acc : Z) :
  int_valued w = true ->
  sum_weights (JDict w) (map JStr names) acc
  = Returned (acc + total_weight w names).
Proof.
  intros Hw. revert acc.
  induction names as [|t names IH]; intros acc; simpl.
  - f_equal. unfold total_weight. simpl. lia.
  - rewrite tag_weight_text by exact Hw. simpl. rewrite IH.
    f_equal. unfold total_weight. simpl. lia.
Qed.

Lemma score_texts (w : dict) (l : list json) :
  int_valued w = true -> forallb is_text l = true ->
  score (JDict w) (JList l) = Returned (total_weight w (texts l)).
Proof.
  intros Hw Hl. unfold score. simpl.
  rewrite <- (texts_map l Hl) at 1.
  rewrite sum_weights_texts by exact Hw. reflexivity.
Qed.

Lemma score_bullet_typed (w : dict) (bullet : json) :
  int_valued w = true -> tagged_unit bullet = true ->
  score_bullet (JDict w) bullet = Returned (scored_unit w bullet).
Proof.
  intros Hw Hb. destruct bullet as [| | | | | |d]; try discriminate.
  unfold score_bullet, scored_unit, tags_of, field, Py.get. simpl in Hb.
  destruct (assoc_get (str "tags") d) as [v|]; simpl.
  - destruct v as [| | | | |l|]; simpl in Hb; try discriminate.
    assert (Hor : Py.or_ (JList l) (JList []) = JList l)
      by (destruct l; reflexivity).
    rewrite Hor, score_texts by assumption. simpl.
    destruct (assoc_get (str "bullet_text") d); reflexivity.
  - destruct (assoc_get (str "bullet_text") d); reflexivity.
Qed.

Lemma score_each_typed (w : dict) (bullets : list json) :
  int_valued w = true -> forallb tagged_unit bullets = true ->
  score_each (JDict w) bullets = Returned (map (scored_unit w) bullets).
Proof.
  intros Hw. induction bullets as [|b bullets IH]; simpl; [reflexivity|].
  intros H. apply andb_prop in H as [Hb Hbs].
  rewrite score_bullet_typed by assumption. simpl.
  rewrite IH by assumption. reflexivity.
Qed.

Lemma signal_weights_typed (jd_signals : json) :
  weighted_profile jd_signals = true ->
  signal_weights jd_signals = Returned (JDict (weights_of jd_signals))
  /\ int_valued (weights_of jd_signals) = true.
Proof.
  destruct jd_signals as [| | | | | |d]; try discriminate.
  unfold signal_weights, weights_of, field, Py.get. simpl.
  destruct (assoc_get (str "signal_weights") d) as [v|]; simpl.
  - destruct v as [| | | | | |w]; simpl; try discriminate.
    intros Hw. split; [|exact Hw]. destruct w; reflexivity.
  - intros _. split; reflexivity.
Qed.

Lemma scored_in_input_order_typed (jd_signals : json) (bullets : list json) :
  weighted_profile jd_signals = true ->
  forallb tagged_unit bullets = true ->
  scored_in_input_order jd_signals bullets
  = Returned (map (scored_unit (weights_of jd_signals)) bullets).
Proof.
  intros Hp Hb. destruct (signal_weights_typed jd_signals Hp) as [Hw Hint].
  unfold scored_in_input_order. rewrite Hw. simpl.
  now apply score_each_typed.
Qed.

Lemma scored_bullets_typed (jd_signals : json) (bullets : list json) :
  weighted_profile jd_signals = true ->
  forallb tagged_unit bullets = true ->
  scored_bullets jd_signals bullets
  = Returned (sort_reverse alignment_score
                (map (scored_unit (weights_of jd_signals)) bullets)).
Proof.
  intros Hp Hb. destruct (signal_weights_typed jd_signals Hp) as [Hw Hint].
  unfold scored_bullets. rewrite Hw. simpl.
  rewrite score_each_typed by assumption. reflexivity.
Qed.

Lemma weight_weights_dict (w : list (pystr * Z)) (t : pystr) :
  weight (weights_dict w) t = match assoc_get t w with Some z => z | None => 0 end.
Proof.
  unfold weight. rewrite assoc_get_weights_dict.
  destruct (assoc_get t w); reflexivity.
Qed.

Lemma weighted_profile_of (w : list (pystr * Z)) :
  weighted_profile (profile_of w) = true.
Proof. simpl. apply int_valued_weights_dict. Qed.

Lemma tagged_unit_of (text : pystr) (names : list pystr) :
  tagged_unit (unit_of text names) = true.
Proof. simpl. apply forallb_is_text_map. Qed.

Lemma total_weight_app (w : dict) (l1 l2 : list pystr) :
  total_weight w (l1 ++ l2) = total_weight w l1 + total_weight w l2.
Proof.
  unfold total_weight. induction l1 as [|t l1 IH]; simpl; [reflexivity|].
  rewrite IH. lia.
Qed.

(* ================================================================= *)
(** ** Claims about the Alignment Scorer *)

Lemma mem_In (t : pystr) (l : list pystr) : mem t l = true <-> In t l.
Proof.
  unfold mem. rewrite existsb_exists. split.
  - intros (x & Hx & Heq). apply str_eqb_eq in Heq. now subst.
  - intros H. exists t. split; [exact H | apply str_eqb_refl].
Qed.

Lemma map_JStr_inj (l1 l2 : list pystr) : map JStr l1 = map JStr l2 -> l1 = l2.
Proof.
  revert l2. induction l1 as [|a l1 IH]; intros [|b l2] H; simpl in H;
    try discriminate; [reflexivity|].
  injection H as Hab Hl. f_equal; [exact Hab | now apply IH].
Qed.

(** C1.  For every weights mapping and every tag list, the score the
    Scorer computes is the sum over the tags of the tag's weight, a tag
    the mapping does not have counting 0; the scored units of a run are
    the input units in order, each with that sum, whatever the text; and
    with weights backend 9, frontend 2 and tags backend, frontend the
    score is 11.  The score is a function of the tags and the weights
    alone, so computing it again gives the same number. *)
Theorem alignment_score_is_weight_sum :
  (forall (w : list (pystr * Z)) (names : list pystr),
      score (JDict (weights_dict w)) (tag_list names)
      = Returned (fold_right Z.add 0
                    (map (fun t => match assoc_get t w with
                                   | Some z => z
                                   | None => 0
                                   end) names)))
  /\ (forall (w : list (pystr * Z)) (units : list (pystr * list pystr)),
      scored_in_input_order (profile_of w)
        (map (fun u => unit_of (fst u) (snd u)) units)
      = Returned (map (fun u =>
                    {| bullet_text := JStr (fst u);
                       tags := tag_list (snd u);
                       alignment_score :=
                         total_weight (weights_dict w) (snd u) |}) units))
  /\ score (JDict (weights_dict [(str "backend", 9); (str "frontend", 2)]))
           (tag_list [str "backend"; str "frontend"])
     = Returned 11.
Proof.
  split; [|split].
  - intros w names. unfold tag_list.
    rewrite score_texts
      by (apply int_valued_weights_dict || apply forallb_is_text_map).
    rewrite texts_map_JStr. unfold total_weight. f_equal. f_equal.
    apply map_ext. intros t. apply weight_weights_dict.
  - intros w units.
    rewrite scored_in_input_order_typed.
    + f_equal. rewrite map_map. apply map_ext. intros [text names].
      unfold scored_unit, tags_of, unit_of, field, tag_names, tag_list.
      cbn [fst snd]. replace (weights_of (profile_of w)) with (weights_dict w)
        by reflexivity.
      change (assoc_get (str "bullet_text")
                [(str "bullet_text", JStr text); (str "tags", JList (map JStr names))])
        with (Some (JStr text)).
      change (assoc_get (str "tags")
                [(str "bullet_text", JStr text); (str "tags", JList (map JStr names))])
        with (Some (JList (map JStr names))).
      cbn iota. now rewrite texts_map_JStr.
    + apply weighted_profile_of.
    + induction units as [|[text names] units IH]; [reflexivity|].
      cbn [map forallb fst snd]. rewrite IH, tagged_unit_of. reflexivity.
  - vm_compute. reflexivity.
Qed.

(** C2.  For a profile with integer weights and tagged units, the
    Scorer returns the scored units ordered by decreasing score, and the
    units of any one score stand in the ranking in the order they had in
    the input.  The same holds of whatever input the scoring loop gets
    through: the sort orders what the loop has scored and keeps ties in
    place, and it is not reached when the loop raises.  Units that enter
    with scores 5, 9, 5, 3 leave as 9, 5, 5, 3, the first score-5 unit
    before the third. *)
Theorem ranking_descending_and_stable :
  (forall (jd_signals : json) (tagged_bullets : list json),
      weighted_profile jd_signals = true ->
      forallb tagged_unit tagged_bullets = true ->
      exists scored ranked,
        scored_in_input_order jd_signals tagged_bullets = Returned scored
        /\ scored_bullets jd_signals tagged_bullets = Returned ranked
        /\ descending ranked
        /\ forall s, filter (has_score s) ranked = filter (has_score s) scored)
  /\ (forall (jd_signals : json) (tagged_bullets : list json),
        match scored_in_input_order jd_signals tagged_bullets with
        | Returned scored =>
            exists ranked,
              scored_bullets jd_signals tagged_bullets = Returned ranked
              /\ descending ranked
              /\ forall s, filter (has_score s) ranked = filter (has_score s) scored
        | Raised e => scored_bullets jd_signals tagged_bullets = Raised e
        end)
  /\ (exists scored ranked,
        scored_in_input_order ranking_example_profile ranking_example_units
        = Returned scored
        /\ scored_bullets ranking_example_profile ranking_example_units
           = Returned ranked
        /\ map alignment_score scored = [5; 9; 5; 3]
        /\ map alignment_score ranked = [9; 5; 5; 3]
        /\ map bullet_text ranked
           = [JStr (str "second"); JStr (str "first");
              JStr (str "third"); JStr (str "fourth")]).
Proof.
  split; [|split].
  - intros jd_signals bullets Hp Hb.
    exists (map (scored_unit (weights_of jd_signals)) bullets).
    exists (sort_reverse alignment_score
              (map (scored_unit (weights_of jd_signals)) bullets)).
    split; [now apply scored_in_input_order_typed|].
    split; [now apply scored_bullets_typed|].
    split; [apply sort_reverse_sorted|].
    intros s. apply sort_reverse_stable.
  - intros jd_signals bullets.
    unfold scored_in_input_order, scored_bullets.
    destruct (signal_weights jd_signals) as [w|e]; [|reflexivity].
    cbn [obind]. destruct (score_each w bullets) as [scored|e]; [|reflexivity].
    cbn [obind]. eexists. split; [reflexivity|].
    split; [apply sort_reverse_sorted|].
    intros s. apply sort_reverse_stable.
  - eexists. eexists.
    split; [vm_compute; reflexivity|].
    split; [vm_compute; reflexivity|].
    repeat split; vm_compute; reflexivity.
Qed.

(** The ranking example meets the conditions of the general statement. *)
Lemma ranking_descending_and_stable_witness :
  weighted_profile ranking_example_profile = true
  /\ forallb tagged_unit ranking_example_units = true
  /\ exists scored ranked,
       scored_in_input_order ranking_example_profile ranking_example_units
       = Returned scored
       /\ scored_bullets ranking_example_profile ranking_example_units
          = Returned ranked
       /\ descending ranked
       /\ forall s, filter (has_score s) ranked = filter (has_score s) scored.
Proof.
  split; [reflexivity|]. split; [reflexivity|].
  apply (proj1 ranking_descending_and_stable); reflexivity.
Defined.

(** C9 as stated fails: the Scorer ranks a unit whose tags are not all
    Taxonomy identifiers, and the ScoredUnit carries them. *)
Lemma taxonomy_closure_counterexample :
  exists ranked b,
    weighted_profile off_taxonomy_profile = true
    /\ forallb tagged_unit off_taxonomy_units = true
    /\ scored_bullets off_taxonomy_profile off_taxonomy_units = Returned ranked
    /\ In b ranked
    /\ ~ taxonomy_closed b.
Proof.
  eexists. eexists.
  split; [reflexivity|]. split; [reflexivity|].
  split; [vm_compute; reflexivity|].
  split; [left; reflexivity|].
  intros (names & Htags & Hin & _).
  cbn [tags] in Htags. unfold tag_list in Htags.
  injection Htags as Htags. apply (map_JStr_inj [_; _]) in Htags. subst names.
  specialize (Hin (str "blockchain") (or_intror (or_introl eq_refl))).
  apply mem_In in Hin. vm_compute in Hin. discriminate.
Qed.

(** C9, amended.  The Scorer does not check tags against the Taxonomy:
    every ScoredUnit carries the tags of a unit of the input, untouched,
    so the ScoredUnits' tags are 1 to 3 distinct Taxonomy identifiers
    whenever the input units' tags are;
    and a tag that has no entry in the weights mapping, which an unknown
    cluster is when the mapping's keys are Taxonomy identifiers, leaves
    the score what it is without that tag. *)
Theorem tags_carried_and_unknown_tag_scores_zero :
  (forall (jd_signals : json) (tagged_bullets : list json),
      weighted_profile jd_signals = true ->
      forallb tagged_unit tagged_bullets = true ->
      exists ranked,
        scored_bullets jd_signals tagged_bullets = Returned ranked
        /\ (forall b, In b ranked ->
              exists bullet, In bullet tagged_bullets
                             /\ tags b = field bullet (str "tags") (JList []))
        /\ ((forall bullet, In bullet tagged_bullets ->
               taxonomy_tags (field bullet (str "tags") (JList []))) ->
            forall b, In b ranked -> taxonomy_closed b))
  /\ (forall (w : dict) (before after : list pystr) (unknown : pystr),
        int_valued w = true ->
        assoc_get unknown w = None ->
        score (JDict w) (tag_list (before ++ unknown :: after))
        = score (JDict w) (tag_list (before ++ after)))
  /\ (forall (w : dict) (unknown : pystr),
        (forall k, In k (map fst w) -> In k clusters) ->
        ~ In unknown clusters ->
        assoc_get unknown w = None).
Proof.
  split; [|split].
  - intros jd_signals bullets Hp Hb.
    eexists. split; [now apply scored_bullets_typed|].
    assert (Hfrom : forall b,
               In b (sort_reverse alignment_score
                       (map (scored_unit (weights_of jd_signals)) bullets)) ->
               exists bullet, In bullet bullets
                              /\ b = scored_unit (weights_of jd_signals) bullet).
    { intros b Hin.
      apply (Permutation_in _ (sort_reverse_perm alignment_score _)) in Hin.
      apply in_map_iff in Hin as (bullet & <- & Hin). now exists bullet. }
    split.
    + intros b Hin. destruct (Hfrom b Hin) as (bullet & Hbullet & ->).
      now exists bullet.
    + intros Hclosed b Hin. destruct (Hfrom b Hin) as (bullet & Hbullet & ->).
      exact (Hclosed bullet Hbullet).
  - intros w before after unknown Hw Hget. unfold tag_list.
    rewrite !score_texts by (assumption || apply forallb_is_text_map).
    rewrite !texts_map_JStr. f_equal.
    rewrite !total_weight_app.
    change (unknown :: after) with ([unknown] ++ after).
    rewrite total_weight_app. unfold total_weight at 2. simpl.
    unfold weight at 1. rewrite Hget. lia.
  - intros w unknown Hkeys Hunknown.
    induction w as [|[k v] w IH]; simpl; [reflexivity|].
    destruct (str_eqb_spec unknown k) as [->|Hne].
    + exfalso. apply Hunknown, Hkeys. now left.
    + apply IH. intros k' Hk'. apply Hkeys. now right.
Qed.

(** The unit with the unknown tag: its tags are carried over, and the
    unknown tag adds nothing to its score. *)
Lemma tags_carried_and_unknown_tag_scores_zero_witness :
  (exists ranked,
      scored_bullets off_taxonomy_profile off_taxonomy_units = Returned ranked
      /\ (forall b, In b ranked ->
            exists bullet, In bullet off_taxonomy_units
                           /\ tags b = field bullet (str "tags") (JList [])))
  /\ score (JDict (weights_dict [(str "backend", 9)]))
           (tag_list ([str "backend"] ++ str "blockchain" :: []))
     = score (JDict (weights_dict [(str "backend", 9)]))
             (tag_list ([str "backend"] ++ [])).
Proof.
  split.
  - destruct (proj1 tags_carried_and_unknown_tag_scores_zero
                off_taxonomy_profile off_taxonomy_units eq_refl eq_refl)
      as (ranked & Hrun & Hcarried & _).
    exists ranked. split; [exact Hrun | exact Hcarried].
  - apply (proj1 (proj2 tags_carried_and_unknown_tag_scores_zero));
      reflexivity.
Defined.

(** C10.  For a profile with integer weights and tagged units, the
    Scorer returns a list as long as its input that is a reordering of
    the scored units taken in input order; and these match the input
    unit by unit: the text and the tags are the unit's own, the empty
    text and the empty list when the unit has none, and the score is
    the one field added.  No unit is dropped, repeated or invented. *)
Theorem scoring_preserves_units :
  forall (jd_signals : json) (tagged_bullets : list json),
    weighted_profile jd_signals = true ->
    forallb tagged_unit tagged_bullets = true ->
    exists scored ranked,
      scored_bullets jd_signals tagged_bullets = Returned ranked
      /\ length ranked = length tagged_bullets
      /\ Permutation ranked scored
      /\ Forall2 (fun bullet b =>
                    bullet_text b = field bullet (str "bullet_text") (JStr [])
                    /\ tags b = field bullet (str "tags") (JList [])
                    /\ alignment_score b
                       = total_weight (weights_of jd_signals) (tags_of bullet))
                 tagged_bullets scored.
Proof.
  intros jd_signals bullets Hp Hb.
  exists (map (scored_unit (weights_of jd_signals)) bullets).
  eexists. split; [now apply scored_bullets_typed|].
  split.
  - rewrite (Permutation_length (sort_reverse_perm alignment_score _)).
    apply length_map.
  - split; [apply sort_reverse_perm|].
    clear Hb. induction bullets as [|bullet bullets IH]; simpl; constructor.
    + repeat split.
    + exact IH.
Qed.

(** Units without tags or without text are preserved with the defaults. *)
Lemma scoring_preserves_units_witness :
  exists scored ranked,
    scored_bullets ranking_example_profile sparse_units = Returned ranked
    /\ length ranked = length sparse_units
    /\ Permutation ranked scored
    /\ Forall2 (fun bullet b =>
                  bullet_text b = field bullet (str "bullet_text") (JStr [])
                  /\ tags b = field bullet (str "tags") (JList [])
                  /\ alignment_score b
                     = total_weight (weights_of ranking_example_profile)
                         (tags_of bullet))
               sparse_units scored.
Proof.
  apply (scoring_preserves_units ranking_example_profile sparse_units);
    reflexivity.
Defined.

(* ================================================================= *)
(** ** Searching and replacing *)

Lemma strip_prefix_app (p r : pystr) : strip_prefix p (p ++ r) = Some r.
Proof.
  induction p as [|x p IH]; simpl; [now destruct r|].
  now rewrite N.eqb_refl.
Qed.

Lemma strip_prefix_Some (p s r : pystr) :
  strip_prefix p s = Some r -> s = p ++ r.
Proof.
  revert s. induction p as [|x p IH]; intros [|y s]; simpl; try congruence.
  destruct (N.eqb_spec x y) as [->|]; [|discriminate].
  intros H. now rewrite (IH s H).
Qed.

Lemma starts_with_app (p r : pystr) : starts_with p (p ++ r) = true.
Proof. unfold starts_with. now rewrite strip_prefix_app. Qed.

Lemma starts_with_split (p s : pystr) :
  starts_with p s = true -> exists r, s = p ++ r.
Proof.
  unfold starts_with. destruct (strip_prefix p s) as [r|] eqn:H; [|discriminate].
  intros _. exists r. now apply strip_prefix_Some.
Qed.

Lemma starts_with_cons (x y : char) (p s : pystr) :
  starts_with (x :: p) (y :: s) = N.eqb x y && starts_with p s.
Proof. unfold starts_with. simpl. now destruct (N.eqb x y). Qed.

Lemma starts_with_nil_r (p : pystr) : starts_with p [] = true -> p = [].
Proof. destruct p; [reflexivity | discriminate]. Qed.

(** A text that starts with [p ++ q] starts with [p]. *)
Lemma starts_with_longer (p q s : pystr) :
  starts_with (p ++ q) s = true -> starts_with p s = true.
Proof.
  intros H. apply starts_with_split in H as [r ->].
  rewrite <- app_assoc. apply starts_with_app.
Qed.

Lemma find_cons_None (p : pystr) (c : char) (s : pystr) :
  find p (c :: s) = None -> starts_with p (c :: s) = false /\ find p s = None.
Proof.
  simpl. destruct (starts_with p (c :: s)); [discriminate|].
  destruct (find p s); [discriminate | auto].
Qed.

(** [find] answers with an occurrence... *)
Lemma find_Some_split (p s : pystr) (i : nat) :
  find p s = Some i ->
  exists before rest, s = before ++ p ++ rest /\ length before = i.
Proof.
  revert i. induction s as [|c s IH]; intros i; simpl.
  - destruct (starts_with p []) eqn:Hp; [|discriminate].
    intros [= <-]. apply starts_with_nil_r in Hp as ->. now exists [], [].
  - destruct (starts_with p (c :: s)) eqn:Hp.
    + intros [= <-]. apply starts_with_split in Hp as [r Hr].
      exists [], r. now rewrite Hr.
    + destruct (find p s) as [j|]; [|discriminate].
      intros [= <-]. destruct (IH j eq_refl) as (before & rest & -> & <-).
      now exists (c :: before), rest.
Qed.

(** ...and with the leftmost one. *)
Lemma find_leftmost (p s : pystr) (before rest : pystr) :
  s = before ++ p ++ rest ->
  exists i, find p s = Some i /\ (i <= length before)%nat.
Proof.
  revert s. induction before as [|c before IH]; intros s ->.
  - exists O. split; [|apply Nat.le_refl].
    destruct (p ++ rest) eqn:E; simpl;
      rewrite <- ?E, starts_with_app; reflexivity.
  - simpl. destruct (starts_with p (c :: before ++ p ++ rest)).
    + exists O. split; [reflexivity | apply Nat.le_0_l].
    + destruct (IH _ eq_refl) as (i & -> & Hi).
      exists (S i). split; [reflexivity | simpl; lia].
Qed.

Lemma find_None_no_occurrence (p s : pystr) :
  find p s = None -> forall before rest, s <> before ++ p ++ rest.
Proof.
  intros Hnone before rest Heq.
  destruct (find_leftmost p s before rest Heq) as (i & Hi & _). congruence.
Qed.

(** A pattern whose first character does not come again in it cannot
    overlap itself: an occurrence that starts in [before] ends in it. *)
Lemma starts_with_tail_inside (c : char) (p q before rest : pystr) :
  existsb (N.eqb c) q = false ->
  starts_with q (before ++ (c :: p) ++ rest) = true ->
  starts_with q before = true.
Proof.
  revert q. induction before as [|b before IH]; intros [|x q] Hq H;
    try reflexivity.
  - simpl in Hq. apply orb_false_elim in Hq as [Hx _].
    simpl in H. rewrite starts_with_cons in H.
    rewrite N.eqb_sym, Hx in H. discriminate.
  - simpl in Hq. apply orb_false_elim in Hq as [_ Hq].
    simpl in H. rewrite starts_with_cons in *.
    apply andb_prop in H as [-> H]. simpl. now apply IH.
Qed.

Lemma find_after_clean_prefix (c : char) (p before rest : pystr) :
  existsb (N.eqb c) p = false ->
  find (c :: p) before = None ->
  find (c :: p) (before ++ (c :: p) ++ rest) = Some (length before).
Proof.
  intros Hp. induction before as [|b before IH]; intros Hnone.
  - cbn [app length find]. change (c :: p ++ rest) with ((c :: p) ++ rest).
    now rewrite starts_with_app.
  - apply find_cons_None in Hnone as [Hhere Hnone].
    cbn [app length find].
    destruct (starts_with (c :: p) (b :: before ++ c :: p ++ rest)) eqn:H.
    + exfalso. rewrite starts_with_cons in H, Hhere.
      apply andb_prop in H as [Hcb H].
      apply (starts_with_tail_inside c p p before rest Hp) in H.
      rewrite Hcb, H in Hhere. discriminate.
    + pose proof (IH Hnone) as IH'. cbn [app] in IH'. now rewrite IH'.
Qed.

Lemma replace_without_occurrence (old new s : pystr) :
  find old s = None -> replace old new s = s.
Proof.
  unfold replace. induction s as [|c s IH]; [reflexivity|].
  intros H. apply find_cons_None in H as [Hhere Hnone].
  cbn [replace_from]. rewrite Hhere. now rewrite (IH Hnone).
Qed.

Lemma find_None_longer (p q s : pystr) :
  find p s = None -> find (p ++ q) s = None.
Proof.
  induction s as [|c s IH]; simpl.
  - destruct (starts_with p []) eqn:Hp; [discriminate|]. intros _.
    destruct (starts_with (p ++ q) []) eqn:Hpq; [|reflexivity].
    apply starts_with_longer in Hpq. congruence.
  - destruct (starts_with p (c :: s)) eqn:Hp; [discriminate|].
    destruct (find p s); [discriminate|]. intros _.
    destruct (starts_with (p ++ q) (c :: s)) eqn:Hpq.
    + apply starts_with_longer in Hpq. congruence.
    + now rewrite IH.
Qed.

Lemma lstrip_not_space (c : char) (s : pystr) :
  Py.isspace c = false -> Py.lstrip (c :: s) = c :: s.
Proof. intros H. simpl. now rewrite H. Qed.

Lemma strip_between (first last : char) (middle : pystr) :
  Py.isspace first = false -> Py.isspace last = false ->
  Py.strip (first :: middle ++ [last]) = first :: middle ++ [last].
Proof.
  intros Hf Hl. unfold Py.strip, Py.rstrip.
  rewrite lstrip_not_space by exact Hf.
  change (first :: middle ++ [last]) with ((first :: middle) ++ [last]).
  rewrite rev_app_distr.
  change (rev [last] ++ rev (first :: middle)) with (last :: rev (first :: middle)).
  rewrite lstrip_not_space by exact Hl.
  change (rev (last :: rev (first :: middle)))
    with (rev (rev (first :: middle)) ++ [last]).
  now rewrite rev_involutive.
Qed.

Lemma skipn_length_app {A : Type} (l r : list A) : skipn (length l) (l ++ r) = r.
Proof. induction l as [|x l IH]; simpl; [reflexivity | exact IH]. Qed.

Lemma firstn_length_app {A : Type} (l r : list A) : firstn (length l) (l ++ r) = l.
Proof. induction l as [|x l IH]; simpl; [reflexivity | now rewrite IH]. Qed.

Lemma slice_middle (before middle after : pystr) (j : nat) :
  j = (length before + length middle)%nat ->
  slice (before ++ middle ++ after) (length before) j = middle.
Proof.
  intros ->. unfold slice. rewrite skipn_length_app.
  replace (length before + length middle - length before)%nat
    with (length middle) by lia.
  apply firstn_length_app.
Qed.

(** What a successful lazy search returns: the span from the leftmost
    [opening] to the nearest [closing] after it. *)
Lemma search_lazy_Some (opening closing text span : pystr) :
  search_lazy opening closing text = Some span ->
  exists before body after,
    text = before ++ span ++ after
    /\ span = opening ++ body ++ closing
    /\ (forall before' rest',
           text = before' ++ opening ++ rest' ->
           (length before <= length before')%nat)
    /\ (forall body' after',
           body ++ closing ++ after = body' ++ closing ++ after' ->
           (length body <= length body')%nat).
Proof.
  unfold search_lazy.
  destruct (find opening text) as [i|] eqn:Hopen; [|discriminate].
  destruct (find_Some_split _ _ _ Hopen) as (before & rest & -> & <-).
  replace (before ++ opening ++ rest) with ((before ++ opening) ++ rest) at 1
    by now rewrite app_assoc.
  rewrite <- length_app, skipn_length_app.
  destruct (find closing rest) as [j|] eqn:Hclose; [|discriminate].
  destruct (find_Some_split _ _ _ Hclose) as (body & after & -> & <-).
  intros [= <-]. exists before, body, after.
  assert (Hspan : slice (before ++ opening ++ body ++ closing ++ after)
                    (length before)
                    (length (before ++ opening) + length body + length closing)
                  = opening ++ body ++ closing).
  { replace (opening ++ body ++ closing ++ after)
      with ((opening ++ body ++ closing) ++ after)
      by now rewrite <- !app_assoc.
    apply slice_middle. rewrite !length_app. lia. }
  rewrite Hspan. repeat split.
  - now rewrite <- !app_assoc.
  - intros before' rest' Heq.
    destruct (find_leftmost _ _ _ _ Heq) as (i & Hi & Hle).
    rewrite Hopen in Hi. injection Hi as <-. exact Hle.
  - intros body' after' Heq.
    destruct (find_leftmost _ _ _ _ Heq) as (j & Hj & Hle).
    rewrite Hclose in Hj. injection Hj as <-. exact Hle.
Qed.

(** A failed lazy search means that no [opening] is followed by a
    [closing]. *)
Lemma search_lazy_None (opening closing text : pystr) :
  search_lazy opening closing text = None ->
  forall before body after,
    text <> before ++ opening ++ body ++ closing ++ after.
Proof.
  unfold search_lazy. intros Hnone before body after Heq.
  destruct (find_leftmost opening text before _ Heq) as (i & Hi & Hle).
  rewrite Hi in Hnone.
  destruct (find_Some_split _ _ _ Hi) as (before0 & rest0 & Htext & <-).
  assert (Hrest : exists gap, rest0 = gap ++ closing ++ after).
  { assert (Hskip : skipn (length before0 + length opening) text = rest0).
    { rewrite Htext, app_assoc, <- length_app. apply skipn_length_app. }
    rewrite <- Hskip, Heq.
    replace (before ++ opening ++ body ++ closing ++ after)
      with ((before ++ opening ++ body) ++ closing ++ after)
      by now rewrite <- !app_assoc.
    rewrite skipn_app.
    replace (length before0 + length opening
             - length (before ++ opening ++ body))%nat with O
      by (rewrite !length_app; lia).
    now eexists. }
  destruct Hrest as (gap & Hgap).
  rewrite Htext, app_assoc, <- length_app, skipn_length_app in Hnone.
  destruct (find_leftmost closing rest0 gap after Hgap) as (j & Hj & _).
  rewrite Hj in Hnone. discriminate.
Qed.


(* ================================================================= *)
(** ** Claims about the extraction step *)

(** C7 as stated fails: the search is lazy, not greedy.  On a reply with
    a second end marker the code keeps the text up to the first one,
    where the greedy span of the claim runs to the last. *)
Lemma greedy_extraction_counterexample :
  clean_text (Some two_end_markers_reply)
  = str "\documentclass{article} A \end{document}"
  /\ clean_text_greedy (Some two_end_markers_reply)
     = str "\documentclass{article} A \end{document} as asked; never write \end{document}"
  /\ clean_text (Some two_end_markers_reply)
     <> clean_text_greedy (Some two_end_markers_reply).
Proof.
  split; [vm_compute; reflexivity|].
  split; [vm_compute; reflexivity|].
  vm_compute. discriminate.
Qed.

(** C7, amended.  The extraction searches the reply for the span from
    the first begin marker to the first end marker after it, across
    lines.  When there is one, only that span is kept, what is around
    it is dropped, and the fence markers are stripped from it; when no
    begin marker is followed by an end marker, the whole reply goes
    through with the fence markers stripped.  A reply without text goes
    through as the empty text.  Nothing in the step can fail. *)
Theorem extraction_keeps_first_document :
  (forall reply span,
      search_document reply = Some span ->
      clean_text (Some reply) = strip_fences span
      /\ exists before body after,
           reply = before ++ span ++ after
           /\ span = BEGIN_DOCUMENT ++ body ++ END_DOCUMENT
           /\ (forall before' rest',
                  reply = before' ++ BEGIN_DOCUMENT ++ rest' ->
                  (length before <= length before')%nat)
           /\ (forall body' after',
                  body ++ END_DOCUMENT ++ after = body' ++ END_DOCUMENT ++ after' ->
                  (length body <= length body')%nat))
  /\ (forall reply,
        search_document reply = None ->
        clean_text (Some reply) = strip_fences reply
        /\ forall before body after,
             reply <> before ++ BEGIN_DOCUMENT ++ body ++ END_DOCUMENT ++ after)
  /\ clean_text None = [].
Proof.
  split; [|split].
  - intros reply span Hfound. split.
    + unfold clean_text. now rewrite Hfound.
    + now apply search_lazy_Some.
  - intros reply Hnone. split.
    + unfold clean_text. now rewrite Hnone.
    + now apply search_lazy_None.
  - reflexivity.
Qed.

(** On the reply with two end markers the span kept is the first
    document. *)
Lemma extraction_keeps_first_document_witness :
  search_document two_end_markers_reply
  = Some (str "\documentclass{article} A \end{document}")
  /\ clean_text (Some two_end_markers_reply)
     = strip_fences (str "\documentclass{article} A \end{document}").
Proof.
  assert (H : search_document two_end_markers_reply
              = Some (str "\documentclass{article} A \end{document}"))
    by (vm_compute; reflexivity).
  split; [exact H|].
  exact (proj1 (proj1 extraction_keeps_first_document _ _ H)).
Defined.








(* ================================================================= *)
(** ** The decoder: enough fuel, and the exceptions it can raise *)

Lemma skip_ws_length (s : pystr) : (length (Json.skip_ws s) <= length s)%nat.
Proof.
  induction s as [|c s IH]; simpl; [lia|].
  destruct (Json.is_ws c); simpl; lia.
Qed.

Lemma strip_prefix_length (p s r : pystr) :
  strip_prefix p s = Some r -> length s = (length p + length r)%nat.
Proof. intros H. apply strip_prefix_Some in H as ->. apply length_app. Qed.

Lemma scanstring_behaves (n : nat) :
  forall s acc, (length s <= n)%nat ->
                behaves (Json.scanstring s acc) (length s).
Proof.
  induction n as [|n IH]; intros s acc Hn.
  - destruct s; [simpl; auto | simpl in Hn; lia].
  - destruct s as [|c s]; [simpl; auto|].
    assert (Hrec : forall t acc', (length t <= length s)%nat ->
                     behaves (Json.scanstring t acc') (length (c :: s))).
    { intros t acc' Ht. simpl in Hn.
      pose proof (IH t acc' ltac:(lia)) as H.
      destruct (Json.scanstring t acc'); simpl in *; auto; lia. }
    cbn [Json.scanstring].
    repeat match goal with
           | |- behaves (if ?b then _ else _) _ => destruct b
           | |- behaves (match ?x with _ => _ end) _ => destruct x
           end;
      try (simpl; auto; lia);
      try (apply Hrec; simpl; lia).
Qed.

Lemma span_digits_length (s ds rest : pystr) :
  Json.span_digits s = (ds, rest) -> length s = (length ds + length rest)%nat.
Proof.
  revert ds rest. induction s as [|c s IH]; intros ds rest; simpl.
  - intros [= <- <-]. reflexivity.
  - destruct (Py.is_digit c).
    + destruct (Json.span_digits s) as [ds' rest'] eqn:E.
      intros [= <- <-]. simpl. rewrite (IH _ _ eq_refl). reflexivity.
    + intros [= <- <-]. reflexivity.
Qed.

Lemma take_sign_length (s : pystr) :
  (length (snd (Json.take_sign s)) <= length s)%nat.
Proof.
  destruct s as [|c r]; simpl; [lia|].
  destruct (c =? 45)%N; simpl; lia.
Qed.

Lemma take_integer_length (s integer rest : pystr) :
  Json.take_integer s = Some (integer, rest) -> (length rest < length s)%nat.
Proof.
  destruct s as [|c r]; simpl; [discriminate|].
  destruct (negb (Py.is_digit c)); [discriminate|].
  destruct (c =? 48)%N.
  - intros [= <- <-]. lia.
  - destruct (Json.span_digits r) as [ds rest'] eqn:E.
    intros [= <- <-]. apply span_digits_length in E. lia.
Qed.

Lemma take_fraction_length (s : pystr) :
  (length (snd (Json.take_fraction s)) <= length s)%nat.
Proof.
  destruct s as [|dot [|d r]]; simpl; try lia.
  destruct ((dot =? 46)%N && Py.is_digit d); simpl; [|lia].
  destruct (Py.is_digit d).
  - destruct (Json.span_digits r) as [ds rest] eqn:E.
    apply span_digits_length in E. simpl. lia.
  - simpl. lia.
Qed.

Lemma take_exponent_length (s : pystr) :
  (length (snd (Json.take_exponent s)) <= length s)%nat.
Proof.
  destruct s as [|e r]; simpl; [lia|].
  destruct ((e =? 101)%N || (e =? 69)%N); simpl; [|lia].
  destruct r as [|sg r']; [simpl; lia|].
  destruct (sg =? 45)%N; [|destruct (sg =? 43)%N].
  - destruct (Json.span_digits r') as [ds rest] eqn:E.
    apply span_digits_length in E. destruct ds; simpl in *; lia.
  - destruct (Json.span_digits r') as [ds rest] eqn:E.
    apply span_digits_length in E. destruct ds; simpl in *; lia.
  - destruct (Json.span_digits (sg :: r')) as [ds rest] eqn:E.
    apply span_digits_length in E. destruct ds; simpl in *; lia.
Qed.

Lemma int_of_digits_raises (negative : bool) (ds : pystr) (e : exn) :
  Py.int_of_digits negative ds = Raised e -> e = ValueError.
Proof.
  unfold Py.int_of_digits.
  destruct (Py.int_max_str_digits <? length ds)%nat; congruence.
Qed.

Lemma match_number_behaves (s : pystr) :
  behaves (Json.match_number s) (length s).
Proof.
  unfold Json.match_number.
  pose proof (take_sign_length s) as Hsign.
  destruct (Json.take_sign s) as [negative s1]. cbn [snd] in Hsign.
  destruct (Json.take_integer s1) as [[integer s2]|] eqn:Hint;
    [|simpl; auto].
  apply take_integer_length in Hint.
  pose proof (take_fraction_length s2) as Hfrac.
  destruct (Json.take_fraction s2) as [frac s3]. cbn [snd] in Hfrac.
  pose proof (take_exponent_length s3) as Hexp.
  destruct (Json.take_exponent s3) as [exponent s4]. cbn [snd] in Hexp.
  destruct frac, exponent; try (simpl; lia).
  destruct (Py.int_of_digits negative integer) eqn:Hz; simpl; [lia|].
  right. eapply int_of_digits_raises, Hz.
Qed.

Lemma match_constant_length (table : list (pystr * json)) (s rest : pystr) (v : json) :
  Forall (fun kv => fst kv <> []) table ->
  Json.match_constant table s = Some (v, rest) ->
  (length rest < length s)%nat.
Proof.
  induction 1 as [|[name v'] table Hname _ IH]; simpl; [discriminate|].
  destruct (strip_prefix name s) as [r|] eqn:Hr; [|exact IH].
  intros [= <- <-]. apply strip_prefix_length in Hr.
  destruct name; [now contradiction Hname|]. simpl in Hr. lia.
Qed.

Lemma constants_named : Forall (fun kv => fst kv <> []) Json.constants.
Proof. repeat constructor; intros H; cbv in H; discriminate. Qed.

(** With fuel for twice the text and one more, no step runs out. *)
Lemma decoder_behaves (fuel : nat) :
  (forall s, (2 * length s + 1 <= fuel)%nat ->
             behaves (Json.scan_once fuel s) (length s))
  /\ (forall s items, (2 * length s + 2 <= fuel)%nat ->
                      behaves (Json.parse_array fuel s items) (length s))
  /\ (forall s pairs, (2 * length s + 2 <= fuel)%nat ->
                      behaves (Json.parse_object fuel s pairs) (length s)).
Proof.
  induction fuel as [|fuel (IHscan & IHarray & IHobject)].
  { repeat split; intros; lia. }
  split; [|split].
  - (* scan_once *)
    intros s Hfuel. destruct s as [|c r]; [simpl; auto|].
    cbn [Json.scan_once]. cbn [length] in *.
    destruct (c =? 34)%N.
    { pose proof (scanstring_behaves _ r [] (Nat.le_refl _)) as H.
      destruct (Json.scanstring r []); simpl in *; auto; lia. }
    destruct (c =? 123)%N.
    { pose proof (skip_ws_length r) as Hws.
      destruct (Json.skip_ws r) as [|c' r'].
      - pose proof (IHobject [] [] ltac:(simpl; lia)) as H.
        destruct (Json.parse_object fuel [] []); simpl in *; auto; lia.
      - destruct (c' =? 125)%N; [simpl in *; lia|].
        pose proof (IHobject (c' :: r') [] ltac:(simpl in *; lia)) as H.
        destruct (Json.parse_object fuel (c' :: r') []); simpl in *; auto; lia. }
    destruct (c =? 91)%N.
    { pose proof (skip_ws_length r) as Hws.
      destruct (Json.skip_ws r) as [|c' r'].
      - pose proof (IHarray [] [] ltac:(simpl; lia)) as H.
        destruct (Json.parse_array fuel [] []); simpl in *; auto; lia.
      - destruct (c' =? 93)%N; [simpl in *; lia|].
        pose proof (IHarray (c' :: r') [] ltac:(simpl in *; lia)) as H.
        destruct (Json.parse_array fuel (c' :: r') []); simpl in *; auto; lia. }
    destruct (Json.match_constant Json.constants (c :: r)) as [[v rest]|] eqn:Hc.
    { apply (match_constant_length _ _ _ _ constants_named) in Hc.
      simpl in *. lia. }
    apply (match_number_behaves (c :: r)).
  - (* parse_array *)
    intros s items Hfuel. cbn [Json.parse_array].
    pose proof (IHscan s ltac:(lia)) as Hv.
    destruct (Json.scan_once fuel s) as [v rest| |]; simpl in Hv; auto.
    pose proof (skip_ws_length rest) as Hws.
    destruct (Json.skip_ws rest) as [|c r]; [simpl; auto|].
    destruct (c =? 93)%N; [simpl in *; lia|].
    destruct (c =? 44)%N; [|simpl; auto].
    pose proof (skip_ws_length r) as Hws'.
    pose proof (IHarray (Json.skip_ws r) (v :: items) ltac:(simpl in *; lia)) as H.
    destruct (Json.parse_array fuel (Json.skip_ws r) (v :: items));
      simpl in *; auto; lia.
  - (* parse_object *)
    intros s pairs Hfuel. cbn [Json.parse_object].
    destruct s as [|q r0]; [simpl; auto|].
    destruct (negb (q =? 34)%N); [simpl; auto|].
    pose proof (scanstring_behaves _ r0 [] (Nat.le_refl _)) as Hkey.
    destruct (Json.scanstring r0 []) as [key rest| |]; simpl in Hkey; auto.
    pose proof (skip_ws_length rest) as Hws.
    destruct (Json.skip_ws rest) as [|colon r1]; [simpl; auto|].
    destruct (negb (colon =? 58)%N); [simpl; auto|].
    pose proof (skip_ws_length r1) as Hws1.
    pose proof (IHscan (Json.skip_ws r1) ltac:(simpl in *; lia)) as Hv.
    destruct (Json.scan_once fuel (Json.skip_ws r1)) as [v rest'| |];
      simpl in Hv; auto.
    pose proof (skip_ws_length rest') as Hws2.
    destruct (Json.skip_ws rest') as [|c r2]; [simpl; auto|].
    destruct (c =? 125)%N; [simpl in *; lia|].
    destruct (c =? 44)%N; [|simpl; auto].
    pose proof (skip_ws_length r2) as Hws3.
    pose proof (IHobject (Json.skip_ws r2) (assoc_set key v pairs)
                  ltac:(simpl in *; lia)) as H.
    destruct (Json.parse_object fuel (Json.skip_ws r2) (assoc_set key v pairs));
      simpl in *; auto; lia.
Qed.

(** [json.loads] raises nothing but [JSONDecodeError] and the
    [ValueError] of an integer too long to convert. *)
Lemma loads_raises (s : pystr) (e : exn) :
  Json.loads s = Raised e -> e = JSONDecodeError \/ e = ValueError.
Proof.
  unfold Json.loads. destruct (starts_with [65279%N] s); [intros [= <-]; auto|].
  pose proof (proj1 (decoder_behaves (Json.enough_fuel (Json.skip_ws s)))
                (Json.skip_ws s) (Nat.le_refl _)) as H.
  destruct (Json.scan_once _ _) as [v rest| |]; simpl in H.
  - destruct (Json.skip_ws rest); [discriminate | intros [= <-]; auto].
  - intros [= <-]. exact H.
  - contradiction.
Qed.

(** The fuel [json.loads] starts with is never used up. *)
Lemma loads_has_enough_fuel (s : pystr) :
  Json.scan_once (Json.enough_fuel (Json.skip_ws s)) (Json.skip_ws s)
  <> Json.OutOfFuel.
Proof.
  pose proof (proj1 (decoder_behaves (Json.enough_fuel (Json.skip_ws s)))
                (Json.skip_ws s) (Nat.le_refl _)) as H.
  intros Hout. rewrite Hout in H. exact H.
Qed.

(* ================================================================= *)
(** ** The greedy search *)

Lemma rfind_Some_split (p s : pystr) (i : nat) :
  rfind p s = Some i ->
  exists before rest, s = before ++ p ++ rest /\ length before = i.
Proof.
  revert i. induction s as [|c s IH]; intros i; simpl.
  - destruct (starts_with p []) eqn:Hp; [|discriminate].
    intros [= <-]. apply starts_with_nil_r in Hp as ->. now exists [], [].
  - destruct (rfind p s) as [j|].
    + intros [= <-]. destruct (IH j eq_refl) as (before & rest & -> & <-).
      now exists (c :: before), rest.
    + destruct (starts_with p (c :: s)) eqn:Hp; [|discriminate].
      intros [= <-]. apply starts_with_split in Hp as [r Hr].
      exists [], r. now rewrite Hr.
Qed.

Lemma rfind_rightmost (p s : pystr) (before rest : pystr) :
  s = before ++ p ++ rest ->
  exists i, rfind p s = Some i /\ (length before <= i)%nat.
Proof.
  revert s. induction before as [|c before IH]; intros s ->.
  - cbn [app length]. destruct (p ++ rest) as [|c s] eqn:E.
    + exists O. simpl. rewrite <- E, starts_with_app. auto.
    + simpl. destruct (rfind p s) as [i|].
      * exists (S i). split; [reflexivity | lia].
      * exists O. rewrite <- E, starts_with_app. auto.
  - simpl. destruct (IH _ eq_refl) as (i & -> & Hi).
    exists (S i). split; [reflexivity | lia].
Qed.

(** What a successful greedy search returns: the span from the leftmost
    [opening] to the last [closing] after it. *)
Lemma search_greedy_Some (opening closing text span : pystr) :
  search_greedy opening closing text = Some span ->
  exists before inside after,
    text = before ++ span ++ after
    /\ span = opening ++ inside ++ closing
    /\ (forall before' rest',
           text = before' ++ opening ++ rest' ->
           (length before <= length before')%nat)
    /\ (forall inside' after',
           inside ++ closing ++ after = inside' ++ closing ++ after' ->
           (length inside' <= length inside)%nat).
Proof.
  unfold search_greedy.
  destruct (find opening text) as [i|] eqn:Hopen; [|discriminate].
  destruct (find_Some_split _ _ _ Hopen) as (before & rest & -> & <-).
  replace (before ++ opening ++ rest) with ((before ++ opening) ++ rest) at 1
    by now rewrite app_assoc.
  rewrite <- length_app, skipn_length_app.
  destruct (rfind closing rest) as [j|] eqn:Hclose; [|discriminate].
  destruct (rfind_Some_split _ _ _ Hclose) as (inside & after & -> & <-).
  intros [= <-]. exists before, inside, after.
  assert (Hspan : slice (before ++ opening ++ inside ++ closing ++ after)
                    (length before)
                    (length (before ++ opening) + length inside + length closing)
                  = opening ++ inside ++ closing).
  { replace (opening ++ inside ++ closing ++ after)
      with ((opening ++ inside ++ closing) ++ after)
      by now rewrite <- !app_assoc.
    apply slice_middle. rewrite !length_app. lia. }
  rewrite Hspan. repeat split.
  - now rewrite <- !app_assoc.
  - intros before' rest' Heq.
    destruct (find_leftmost _ _ _ _ Heq) as (i & Hi & Hle).
    rewrite Hopen in Hi. injection Hi as <-. exact Hle.
  - intros inside' after' Heq.
    destruct (rfind_rightmost _ _ _ _ Heq) as (j & Hj & Hle).
    rewrite Hclose in Hj. injection Hj as <-. exact Hle.
Qed.

Lemma search_braces_None (raw_text : pystr) :
  no_brace_region raw_text -> search_braces raw_text = None.
Proof.
  intros Hnone. destruct (search_braces raw_text) as [span|] eqn:H;
    [|reflexivity].
  apply search_greedy_Some in H as (before & inside & after & Htext & -> & _).
  exfalso. apply (Hnone before inside after).
  rewrite Htext. now rewrite <- !app_assoc.
Qed.

(* ================================================================= *)
(** ** Claims about the Resilient Parser *)

Lemma result_bind {A B : Type} (m : run A) (k : A -> run B) :
  result (bind m k) = obind (result m) (fun a => result (k a)).
Proof.
  destruct m as [[a|e] out]; simpl; [|reflexivity].
  now destruct (k a).
Qed.

(** The outcomes of the parser: a decoded value and nothing printed;
    [None] and one warning; or the [ValueError] that [json.loads] let
    through, which no [except] clause catches. *)
Lemma safe_json_loads_outcomes (raw_text context_label : pystr) :
  (exists v, safe_json_loads raw_text context_label = (Returned v, []))
  \/ safe_json_loads raw_text context_label
     = (Returned JNull, [warning context_label])
  \/ safe_json_loads raw_text context_label = (Raised ValueError, []).
Proof.
  unfold safe_json_loads.
  destruct (Json.loads raw_text) as [v|e] eqn:Hfirst; [left; now exists v|].
  destruct (loads_raises _ _ Hfirst) as [-> | ->]; [|now right; right].
  destruct (search_braces raw_text) as [group0|]; [|now right; left].
  destruct (Json.loads group0) as [v|e] eqn:Hsecond; [left; now exists v|].
  destruct (loads_raises _ _ Hsecond) as [-> | ->];
    [now right; left | now right; right].
Qed.

(** C3 as stated fails: a text without any brace can be a JSON document,
    and then the parser returns what it decodes and prints nothing. *)
Lemma no_brace_region_counterexample :
  no_brace_region (str "[1, 2]")
  /\ safe_json_loads (str "[1, 2]") (str "JD signals")
     = (Returned (JList [JInt 1; JInt 2]), []).
Proof.
  split; [|vm_compute; reflexivity].
  intros before inside after Heq.
  apply (find_None_no_occurrence (str "{") (str "[1, 2]"))
    with (before := before) (rest := inside ++ str "}" ++ after);
    [vm_compute; reflexivity | exact Heq].
Qed.

(** C3, amended.  The parser first decodes the whole text and returns
    the value if that works.  If it fails with a decode error, the
    parser takes the span from the first opening brace to the last
    closing brace after it, across lines, and decodes that; a value is
    returned, a decode error gives [None] and one warning that ends in
    the caller's label.  On the example text the record comes back.
    On a text that does not decode and has no region between braces
    the parser returns [None] and prints exactly that one warning. *)
Theorem parser_fallback :
  (forall raw_text context_label v,
      Json.loads raw_text = Returned v ->
      safe_json_loads raw_text context_label = (Returned v, []))
  /\ (forall raw_text context_label span,
        Json.loads raw_text = Raised JSONDecodeError ->
        search_braces raw_text = Some span ->
        (exists before inside after,
            raw_text = before ++ span ++ after
            /\ span = str "{" ++ inside ++ str "}"
            /\ (forall before' rest',
                   raw_text = before' ++ str "{" ++ rest' ->
                   (length before <= length before')%nat)
            /\ (forall inside' after',
                   inside ++ str "}" ++ after = inside' ++ str "}" ++ after' ->
                   (length inside' <= length inside)%nat))
        /\ (forall v, Json.loads span = Returned v ->
                      safe_json_loads raw_text context_label = (Returned v, []))
        /\ (Json.loads span = Raised JSONDecodeError ->
            safe_json_loads raw_text context_label
            = (Returned JNull, [warning context_label])))
  /\ (forall context_label,
        safe_json_loads fallback_example_text context_label
        = (Returned fallback_example_record, []))
  /\ (forall raw_text context_label,
        Json.loads raw_text = Raised JSONDecodeError ->
        no_brace_region raw_text ->
        safe_json_loads raw_text context_label
        = (Returned JNull, [str "[WARN] Failed to parse JSON for " ++ context_label])).
Proof.
  split; [|split; [|split]].
  - intros raw label v H. unfold safe_json_loads. now rewrite H.
  - intros raw label span Hfirst Hspan. split; [|split].
    + now apply search_greedy_Some.
    + intros v H. unfold safe_json_loads. now rewrite Hfirst, Hspan, H.
    + intros H. unfold safe_json_loads. now rewrite Hfirst, Hspan, H.
  - intros label. vm_compute. reflexivity.
  - intros raw label Hfirst Hnone. unfold safe_json_loads.
    now rewrite Hfirst, (search_braces_None raw Hnone).
Qed.

(** A text with no brace that is not a JSON document: no result, one
    warning with the label. *)
Lemma parser_fallback_witness :
  Json.loads (str "no record here") = Raised JSONDecodeError
  /\ no_brace_region (str "no record here")
  /\ safe_json_loads (str "no record here") (str "bullet tagging")
     = (Returned JNull,
        [str "[WARN] Failed to parse JSON for " ++ str "bullet tagging"]).
Proof.
  assert (Hfirst : Json.loads (str "no record here") = Raised JSONDecodeError)
    by (vm_compute; reflexivity).
  assert (Hnone : no_brace_region (str "no record here")).
  { intros before inside after Heq.
    apply (find_None_no_occurrence (str "{") (str "no record here"))
      with (before := before) (rest := inside ++ str "}" ++ after);
      [vm_compute; reflexivity | exact Heq]. }
  split; [exact Hfirst|]. split; [exact Hnone|].
  exact (proj2 (proj2 (proj2 parser_fallback)) _ _ Hfirst Hnone).
Defined.

(** C4 fails on the code: an integer literal of more than 4300 digits
    makes [json.loads] raise [ValueError], which is not a
    [JSONDecodeError], so it leaves [safe_json_loads] uncaught.  It is
    the one exception that can: on every text the parser otherwise
    returns, a value or [None]. *)
Theorem safe_json_loads_raises_on_long_integer :
  (forall context_label,
      safe_json_loads long_integer_text context_label = (Raised ValueError, []))
  /\ (forall raw_text context_label,
        (exists v, result (safe_json_loads raw_text context_label) = Returned v)
        \/ result (safe_json_loads raw_text context_label) = Raised ValueError).
Proof.
  split.
  - intros label. vm_compute. reflexivity.
  - intros raw label.
    destruct (safe_json_loads_outcomes raw label) as [[v H] | [H | H]];
      rewrite H; simpl; eauto.
Qed.

(* ================================================================= *)
(** ** Claims about the Signal Profiler *)

Lemma assoc_get_app_last {A : Type} (k key : pystr) (v : A) (d : list (pystr * A)) :
  assoc_get k (d ++ [(key, v)])
  = match assoc_get k d with
    | Some x => Some x
    | None => if str_eqb k key then Some v else None
    end.
Proof.
  induction d as [|[k' v'] d IH]; simpl; [reflexivity|].
  destruct (str_eqb k k'); [reflexivity | exact IH].
Qed.

(** One [setdefault] on a record: a lookup finds what was there, and
    the default under the key when the key was missing. *)
Lemma setdefault_record (d : dict) (key : pystr) (default : json) :
  exists d',
    Py.setdefault (JDict d) key default = Returned (JDict d')
    /\ forall k,
         assoc_get k d'
         = match assoc_get k d with
           | Some x => Some x
           | None => if str_eqb k key then Some default else None
           end.
Proof.
  unfold Py.setdefault. destruct (assoc_get key d) as [x|] eqn:Hkey.
  - exists d. split; [reflexivity|]. intros k.
    destruct (assoc_get k d) eqn:Hk; [reflexivity|].
    destruct (str_eqb_spec k key) as [->|]; [congruence | reflexivity].
  - eexists. split; [reflexivity|]. intros k. apply assoc_get_app_last.
Qed.

(** The four [setdefault] calls on a record. *)
Lemma profile_defaults_applied (d : dict) :
  exists profile,
    (data <~ Py.setdefault (JDict d) (str "signal_weights") (JDict []) ;;
     data <~ Py.setdefault data (str "top_5_signals") (JList []) ;;
     data <~ Py.setdefault data (str "top_keywords") (JList []) ;;
     Py.setdefault data (str "domain_phrases") (JList []))%outcome
    = Returned (JDict profile)
    /\ forall k,
         assoc_get k profile
         = match assoc_get k d with
           | Some x => Some x
           | None => assoc_get k profile_defaults
           end.
Proof.
  destruct (setdefault_record d (str "signal_weights") (JDict [])) as (d1 & -> & H1).
  destruct (setdefault_record d1 (str "top_5_signals") (JList [])) as (d2 & H2' & H2).
  destruct (setdefault_record d2 (str "top_keywords") (JList [])) as (d3 & H3' & H3).
  destruct (setdefault_record d3 (str "domain_phrases") (JList [])) as (d4 & H4' & H4).
  exists d4. cbn [obind]. rewrite H2'. cbn [obind]. rewrite H3'. cbn [obind].
  split; [exact H4'|].
  intros k. rewrite H4, H3, H2, H1.
  destruct (assoc_get k d); [reflexivity|].
  unfold profile_defaults. cbn [assoc_get].
  repeat match goal with |- context [str_eqb k ?key] => destruct (str_eqb k key) end;
    reflexivity.
Qed.

Lemma extract_signal_weights_result (response_text : pystr) :
  result (extract_signal_weights response_text)
  = (data <~ result (safe_json_loads response_text (str "JD signals")) ;;
     if negb (Py.truthy data) then Returned JNull
     else
       data <~ Py.setdefault data (str "signal_weights") (JDict []) ;;
       data <~ Py.setdefault data (str "top_5_signals") (JList []) ;;
       data <~ Py.setdefault data (str "top_keywords") (JList []) ;;
       Py.setdefault data (str "domain_phrases") (JList []))%outcome.
Proof.
  unfold extract_signal_weights. rewrite !result_bind. cbn [result print fst obind].
  destruct (result (safe_json_loads response_text (str "JD signals"))) as [data|e];
    [|reflexivity].
  cbn [obind]. destruct (negb (Py.truthy data)); [reflexivity|].
  rewrite result_bind. cbn [result lift fst].
  destruct (Py.setdefault data _ _) as [d1|]; [|reflexivity].
  cbn [obind]. rewrite result_bind. cbn [result lift fst].
  destruct (Py.setdefault d1 _ _) as [d2|]; [|reflexivity].
  cbn [obind]. rewrite result_bind. cbn [result lift fst].
  destruct (Py.setdefault d2 _ _) as [d3|]; [|reflexivity].
  cbn [obind]. rewrite result_bind. cbn [result lift fst].
  destruct (Py.setdefault d3 _ _) as [d4|]; reflexivity.
Qed.


(** C5 as stated fails: the reply [{}] decodes to a record, the empty
    one, and the Profiler returns no profile for it instead of the four
    defaults. *)
Lemma empty_record_counterexample :
  result (safe_json_loads (str "{}") (str "JD signals")) = Returned (JDict [])
  /\ result (extract_signal_weights (str "{}")) = Returned JNull.
Proof. split; vm_compute; reflexivity. Qed.

(** C5, amended.  When decoding fails the Profiler returns no profile.
    When the reply decodes to a record that is not empty, the Profiler
    returns a record in which each of the four keys is present: with
    the decoded value when the decoded record had the key, with the
    empty container when it had not; all that was decoded is kept.  A
    decoded record without [domain_phrases] comes back with
    [domain_phrases] equal to the empty list.  (The empty record counts
    as a failure: it is falsy, and the Profiler returns no profile.) *)
Theorem profile_defaulting :
  (forall response_text,
      result (safe_json_loads response_text (str "JD signals")) = Returned JNull ->
      result (extract_signal_weights response_text) = Returned JNull)
  /\ (forall response_text d,
        result (safe_json_loads response_text (str "JD signals"))
        = Returned (JDict d) ->
        d <> [] ->
        exists profile,
          result (extract_signal_weights response_text) = Returned (JDict profile)
          /\ (forall key default,
                 In (key, default) profile_defaults ->
                 assoc_get key profile = Some (field (JDict d) key default))
          /\ (forall key v, assoc_get key d = Some v ->
                            assoc_get key profile = Some v)
          /\ (assoc_get (str "domain_phrases") d = None ->
              assoc_get (str "domain_phrases") profile = Some (JList [])))
  /\ result (extract_signal_weights (str "{}")) = Returned JNull.
Proof.
  split; [|split].
  - intros reply H. rewrite extract_signal_weights_result, H. reflexivity.
  - intros reply d H Hd. rewrite extract_signal_weights_result, H.
    cbn [obind]. destruct d as [|kv d]; [contradiction|].
    cbn [Py.truthy negb].
    destruct (profile_defaults_applied (kv :: d)) as (profile & -> & Hget).
    exists profile. split; [reflexivity|]. split; [|split].
    + intros key default Hin. rewrite Hget. unfold field.
      destruct (assoc_get key (kv :: d)); [reflexivity|].
      unfold profile_defaults in *. cbn [In] in Hin.
      repeat destruct Hin as [[= <- <-] | Hin];
        try (vm_compute; reflexivity); contradiction.
    + intros key v Hkey. now rewrite Hget, Hkey.
    + intros Hmissing. rewrite Hget, Hmissing. vm_compute. reflexivity.
  - vm_compute. reflexivity.
Qed.

(** The reply that lacks only [domain_phrases] gets the empty list for
    it. *)
Lemma profile_defaulting_witness :
  exists d profile,
    result (safe_json_loads profile_reply_without_phrases (str "JD signals"))
    = Returned (JDict d)
    /\ assoc_get (str "domain_phrases") d = None
    /\ result (extract_signal_weights profile_reply_without_phrases)
       = Returned (JDict profile)
    /\ assoc_get (str "domain_phrases") profile = Some (JList []).
Proof.
  eexists.
  assert (H : result (safe_json_loads profile_reply_without_phrases
                        (str "JD signals"))
              = Returned (JDict [(str "signal_weights",
                                  JDict [(str "backend", JInt 9)]);
                                 (str "top_5_signals", JList [JStr (str "backend")]);
                                 (str "top_keywords", JList [])]))
    by (vm_compute; reflexivity).
  destruct (proj1 (proj2 profile_defaulting) _ _ H ltac:(discriminate))
    as (profile & Hrun & _ & _ & Hphrases).
  exists profile. split; [exact H|].
  split; [vm_compute; reflexivity|].
  split; [exact Hrun|].
  apply Hphrases. vm_compute. reflexivity.
Defined.

(* ================================================================= *)
(** ** Claims about the Unit Tagger *)

Lemma tag_resume_bullets_result (response_text : pystr) :
  result (tag_resume_bullets response_text)
  = (data <~ result (safe_json_loads response_text (str "bullet tagging")) ;;
     if negb (Py.truthy data) then Returned []
     else
       tagged <~ Py.get data (str "tagged_bullets") (JList []) ;;
       match tagged with
       | JList l => Returned l
       | _ => Returned []
       end)%outcome.
Proof.
  unfold tag_resume_bullets. rewrite !result_bind. cbn [result print fst obind].
  destruct (result (safe_json_loads response_text (str "bullet tagging")))
    as [data|e]; [|reflexivity].
  cbn [obind]. destruct (negb (Py.truthy data)); [reflexivity|].
  rewrite result_bind. cbn [result lift fst].
  destruct (Py.get data _ _) as [tagged|]; [|reflexivity].
  cbn [obind]. now destruct tagged.
Qed.





(* ================================================================= *)
(** ** The whole of [score_and_adjust_bullets] *)

(** When the function returns, it returns the extraction of the
    oracle's reply; the ranking and the joined fields only feed the
    prompt. *)
Lemma score_and_adjust_bullets_returns_clean_text
    (response_text : option pystr) (jd_signals : json)
    (tagged_bullets : list json) (text : pystr) :
  result (score_and_adjust_bullets response_text jd_signals tagged_bullets)
  = Returned text ->
  text = clean_text response_text.
Proof.
  unfold score_and_adjust_bullets. rewrite !result_bind.
  cbn [result print lift fst obind].
  destruct (scored_bullets jd_signals tagged_bullets) as [scored|];
    [|discriminate].
  cbn [obind].
  destruct (dumps_scored_bullets scored); [|discriminate].
  cbn [obind].
  destruct (joined jd_signals (str "top_5_signals")); [|discriminate].
  cbn [obind].
  destruct (joined jd_signals (str "top_keywords")); [|discriminate].
  cbn [obind].
  destruct (joined jd_signals (str "domain_phrases")); [|discriminate].
  cbn [obind ret fst]. intros [= <-]. reflexivity.
Qed.

(* ================================================================= *)
(** * Further properties of the code *)

(** ** The parser's fallback and transcript *)

Lemma find_char_absent (c : char) (s : pystr) :
  ~ In c s -> find [c] s = None.
Proof.
  induction s as [|x s IH]; intros Hnot; [reflexivity|].
  cbn [find]. rewrite starts_with_cons.
  destruct (N.eqb_spec c x) as [->|Hne]; [exfalso; apply Hnot; now left|].
  cbn [andb]. rewrite IH; [reflexivity|]. intros Hin. apply Hnot. now right.
Qed.

Lemma rfind_char_absent (c : char) (s : pystr) :
  ~ In c s -> rfind [c] s = None.
Proof.
  induction s as [|x s IH]; intros Hnot; [reflexivity|].
  cbn [rfind]. rewrite IH by (intros Hin; apply Hnot; now right).
  rewrite starts_with_cons.
  destruct (N.eqb_spec c x) as [->|Hne]; [exfalso; apply Hnot; now left|].
  reflexivity.
Qed.

Lemma rfind_last_char (c : char) (inside after : pystr) :
  ~ In c after ->
  rfind [c] (inside ++ [c] ++ after) = Some (length inside).
Proof.
  intros Hnot. induction inside as [|x inside IH].
  - cbn [app rfind length]. rewrite rfind_char_absent by exact Hnot.
    rewrite starts_with_cons, N.eqb_refl. reflexivity.
  - cbn [app rfind length]. cbn [app] in IH. now rewrite IH.
Qed.

Lemma mem_In_char (c : char) (s : pystr) :
  In c s -> existsb (N.eqb c) s = true.
Proof.
  intros H. apply existsb_exists. exists c. split; [exact H | apply N.eqb_refl].
Qed.

(** The greedy brace search on a text whose first opening brace and
    last closing brace are known. *)
Lemma search_braces_found (before inside after : pystr) :
  ~ In 123%N before -> ~ In 125%N after ->
  search_braces (before ++ str "{" ++ inside ++ str "}" ++ after)
  = Some (str "{" ++ inside ++ str "}").
Proof.
  intros Hbefore Hafter. unfold search_braces, search_greedy.
  change (str "{") with [123%N]. change (str "}") with [125%N].
  rewrite (find_after_clean_prefix 123%N [] before) by
    (reflexivity || now apply find_char_absent).
  replace (before ++ [123%N] ++ inside ++ [125%N] ++ after)
    with ((before ++ [123%N]) ++ inside ++ [125%N] ++ after)
    by now rewrite <- app_assoc.
  rewrite <- length_app, skipn_length_app.
  rewrite rfind_last_char by exact Hafter.
  f_equal.
  replace ((before ++ [123%N]) ++ inside ++ [125%N] ++ after)
    with (before ++ ([123%N] ++ inside ++ [125%N]) ++ after)
    by now rewrite <- !app_assoc.
  apply slice_middle. rewrite !length_app. lia.
Qed.

(** X1.  A record wrapped in narration is recovered: when the text
    before it has no opening brace, the text after it no closing brace,
    the record's own text decodes and the whole reply does not, the
    parser returns the decoded record and prints nothing. *)
Theorem fallback_recovers_wrapped_record :
  forall (before inside after context_label : pystr) (v : json),
    ~ In 123%N before ->
    ~ In 125%N after ->
    Json.loads (str "{" ++ inside ++ str "}") = Returned v ->
    Json.loads (before ++ str "{" ++ inside ++ str "}" ++ after)
    = Raised JSONDecodeError ->
    safe_json_loads (before ++ str "{" ++ inside ++ str "}" ++ after)
      context_label
    = (Returned v, []).
Proof.
  intros before inside after label v Hbefore Hafter Hrecord Hwhole.
  unfold safe_json_loads.
  rewrite Hwhole, (search_braces_found before inside after Hbefore Hafter).
  now rewrite Hrecord.
Qed.

(** The wrapped tagger reply: the record comes back. *)
Lemma fallback_recovers_wrapped_record_witness :
  exists v,
    safe_json_loads
      (tagger_reply_wrapped_before ++ str "{" ++ tagger_reply_wrapped_inside
       ++ str "}" ++ tagger_reply_wrapped_after)
      (str "bullet tagging")
    = (Returned v, [])
    /\ is_record v = true.
Proof.
  eexists. split.
  - apply (fallback_recovers_wrapped_record
             tagger_reply_wrapped_before tagger_reply_wrapped_inside
             tagger_reply_wrapped_after).
    + intros H. apply mem_In_char in H. vm_compute in H. discriminate.
    + intros H. apply mem_In_char in H. vm_compute in H. discriminate.
    + vm_compute. reflexivity.
    + vm_compute. reflexivity.
  - reflexivity.
Defined.

(** X2.  The context label never changes what the parser returns, only
    the diagnostic.  The parser prints at most one line, and it prints
    the warning exactly when the whole text fails to decode and so does
    the span between the braces, if there is one; it then returns
    [None]. *)
Theorem diagnostic_only_on_failure :
  forall raw_text context_label other_label : pystr,
    result (safe_json_loads raw_text context_label)
    = result (safe_json_loads raw_text other_label)
    /\ (printed (safe_json_loads raw_text context_label) = []
        \/ printed (safe_json_loads raw_text context_label)
           = [warning context_label]
           /\ result (safe_json_loads raw_text context_label) = Returned JNull)
    /\ (printed (safe_json_loads raw_text context_label) = [warning context_label]
        <-> Json.loads raw_text = Raised JSONDecodeError
            /\ match search_braces raw_text with
               | Some span => Json.loads span = Raised JSONDecodeError
               | None => True
               end).
Proof.
  intros raw label other. unfold safe_json_loads.
  destruct (Json.loads raw) as [v|e] eqn:Hfirst.
  { split; [reflexivity|]. split; [now left|].
    split; [discriminate | intros [H _]; discriminate]. }
  destruct (loads_raises _ _ Hfirst) as [-> | ->].
  2:{ split; [reflexivity|]. split; [now left|].
      split; [discriminate | intros [H _]; discriminate]. }
  destruct (search_braces raw) as [span|].
  2:{ split; [reflexivity|]. split; [right; now split|]. now split. }
  destruct (Json.loads span) as [v|e] eqn:Hsecond.
  { split; [reflexivity|]. split; [now left|].
    split; [discriminate | intros [_ H]; discriminate]. }
  destruct (loads_raises _ _ Hsecond) as [-> | ->].
  - split; [reflexivity|]. split; [right; now split|]. now split.
  - split; [reflexivity|]. split; [now left|].
    split; [discriminate | intros [_ H]; discriminate].
Qed.

(** X3.  When the reply decodes to a record, the Tagger returns the
    list under [tagged_bullets] as it was decoded, every unit in its
    place; a record without the key, or with something else than a
    list under it, gives the empty list. *)
Theorem tagger_returns_payload :
  forall (response_text : pystr) (d : dict),
    result (safe_json_loads response_text (str "bullet tagging"))
    = Returned (JDict d) ->
    result (tag_resume_bullets response_text)
    = Returned match assoc_get (str "tagged_bullets") d with
               | Some (JList l) => l
               | _ => []
               end.
Proof.
  intros reply d H. rewrite tag_resume_bullets_result, H. cbn [obind].
  destruct d as [|kv d]; [reflexivity|].
  cbn [Py.truthy negb]. unfold Py.get.
  destruct (assoc_get (str "tagged_bullets") (kv :: d)) as [tagged|];
    [|reflexivity].
  cbn [obind]. now destruct tagged.
Qed.

(** The wrapped tagger reply: its one unit is returned. *)
Lemma tagger_returns_payload_witness :
  result (tag_resume_bullets
            (tagger_reply_wrapped_before ++ str "{" ++ tagger_reply_wrapped_inside
             ++ str "}" ++ tagger_reply_wrapped_after))
  = Returned [unit_of (str "Built APIs") [str "backend"]].
Proof.
  refine (eq_trans (tagger_returns_payload _ _ _) _).
  - vm_compute. reflexivity.
  - vm_compute. reflexivity.
Defined.

(** X4.  A reply that decodes to something other than a record is not
    caught by the guards when it is truthy: a non-empty list or text, a
    number other than zero, [true].  Both the Tagger and the Profiler
    then raise [AttributeError] from the first method call on it.  When
    it is falsy the Tagger returns the empty list and the Profiler no
    profile. *)
Theorem non_record_reply_raises :
  forall (response_text : pystr) (data : json),
    is_record data = false ->
    (result (safe_json_loads response_text (str "bullet tagging")) = Returned data ->
     result (tag_resume_bullets response_text)
     = if Py.truthy data then Raised AttributeError else Returned [])
    /\ (result (safe_json_loads response_text (str "JD signals")) = Returned data ->
        result (extract_signal_weights response_text)
        = if Py.truthy data then Raised AttributeError else Returned JNull).
Proof.
  intros reply data Hdata. split; intros H.
  - rewrite tag_resume_bullets_result, H. cbn [obind].
    destruct (Py.truthy data); [|reflexivity].
    destruct data; try reflexivity; discriminate.
  - rewrite extract_signal_weights_result, H. cbn [obind].
    destruct (Py.truthy data); [|reflexivity].
    destruct data; try reflexivity; discriminate.
Qed.

(** A bare list of units, without the enclosing record. *)
Lemma non_record_reply_raises_witness :
  result (tag_resume_bullets (str "[1, 2]")) = Raised AttributeError
  /\ result (extract_signal_weights (str "[1, 2]")) = Raised AttributeError.
Proof.
  destruct (non_record_reply_raises (str "[1, 2]") (JList [JInt 1; JInt 2]) eq_refl)
    as [Htagger Hprofiler].
  split.
  - apply Htagger. vm_compute. reflexivity.
  - apply Hprofiler. vm_compute. reflexivity.
Defined.

Lemma filter_none {A : Type} (p : A -> bool) (l : list A) :
  forallb p l = true -> filter (fun x => negb (p x)) l = [].
Proof.
  induction l as [|x l IH]; [reflexivity|].
  cbn [forallb filter]. intros H. apply andb_prop in H as [-> Hl].
  now apply IH.
Qed.

Lemma setdefaults_closed_form (d : dict) :
  (data <~ Py.setdefault (JDict d) (str "signal_weights") (JDict []) ;;
   data <~ Py.setdefault data (str "top_5_signals") (JList []) ;;
   data <~ Py.setdefault data (str "top_keywords") (JList []) ;;
   Py.setdefault data (str "domain_phrases") (JList []))%outcome
  = Returned (JDict (d ++ filter (fun kv => negb (has_key (fst kv) d))
                                 profile_defaults)).
Proof.
  unfold Py.setdefault, profile_defaults, has_key. cbn [filter fst].
  destruct (assoc_get (str "signal_weights") d) eqn:E1;
    destruct (assoc_get (str "top_5_signals") d) eqn:E2;
    destruct (assoc_get (str "top_keywords") d) eqn:E3;
    destruct (assoc_get (str "domain_phrases") d) eqn:E4;
    cbn [obind negb];
    repeat (rewrite ?assoc_get_app_last, ?E1, ?E2, ?E3, ?E4;
            repeat match goal with
                   | |- context [str_eqb (str ?a) (str ?b)] =>
                       let r := eval vm_compute in (str_eqb (str a) (str b)) in
                       change (str_eqb (str a) (str b)) with r
                   end;
            cbn [obind]);
    rewrite <- ?app_assoc; cbn [app]; rewrite ?app_nil_r; reflexivity.
Qed.

(** X5.  The profile the Profiler returns for a decoded record that is
    not empty is that record followed by the defaults for the keys it
    lacks, in the order of the [setdefault] calls: nothing decoded is
    moved, replaced or dropped, and a record that has the four keys
    comes back as decoded. *)
Theorem profile_is_record_then_defaults :
  forall (response_text : pystr) (d : dict),
    result (safe_json_loads response_text (str "JD signals"))
    = Returned (JDict d) ->
    d <> [] ->
    result (extract_signal_weights response_text)
    = Returned (JDict (d ++ filter (fun kv => negb (has_key (fst kv) d))
                                   profile_defaults))
    /\ (forallb (fun kv => has_key (fst kv) d) profile_defaults = true ->
        result (extract_signal_weights response_text) = Returned (JDict d)).
Proof.
  intros reply d H Hd.
  assert (Hrun : result (extract_signal_weights reply)
                 = Returned (JDict (d ++ filter (fun kv => negb (has_key (fst kv) d))
                                                profile_defaults))).
  { rewrite extract_signal_weights_result, H. cbn [obind].
    destruct d as [|kv d]; [contradiction|]. cbn [Py.truthy negb].
    apply setdefaults_closed_form. }
  split; [exact Hrun|].
  intros Hall. rewrite Hrun, (filter_none _ _ Hall). now rewrite app_nil_r.
Qed.

(** The reply that lacks only [domain_phrases]: the three decoded
    entries, then the default. *)
Lemma profile_is_record_then_defaults_witness :
  result (extract_signal_weights profile_reply_without_phrases)
  = Returned (JDict [(str "signal_weights", JDict [(str "backend", JInt 9)]);
                     (str "top_5_signals", JList [JStr (str "backend")]);
                     (str "top_keywords", JList []);
                     (str "domain_phrases", JList [])]).
Proof.
  refine (eq_trans (proj1 (profile_is_record_then_defaults
                             profile_reply_without_phrases
                             [(str "signal_weights", JDict [(str "backend", JInt 9)]);
                              (str "top_5_signals", JList [JStr (str "backend")]);
                              (str "top_keywords", JList [])] _ _)) _).
  - vm_compute. reflexivity.
  - discriminate.
  - vm_compute. reflexivity.
Defined.

(* ================================================================= *)
(** ** More about the Alignment Scorer *)

Lemma sort_reverse_of_sorted {A : Type} (key : A -> Z) (l : list A) :
  StronglySorted (fun a b => key b <= key a) l -> sort_reverse key l = l.
Proof.
  induction 1 as [|x l Hl IH Hx]; [reflexivity|].
  cbn [sort_reverse]. rewrite IH.
  destruct l as [|y l']; [reflexivity|].
  cbn [insert_reverse]. inversion Hx as [|? ? Hy _]; subst.
  destruct (Z.ltb_spec (key x) (key y)); [lia | reflexivity].
Qed.

Lemma sorted_of_constant {A : Type} (key : A -> Z) (c : Z) (l : list A) :
  Forall (fun a => key a = c) l ->
  StronglySorted (fun a b => key b <= key a) l.
Proof.
  induction 1 as [|x l Hx Hl IH]; constructor; [exact IH|].
  eapply Forall_impl; [|exact Hl]. cbn. intros a Ha. lia.
Qed.

Lemma total_weight_nil (names : list pystr) : total_weight [] names = 0.
Proof. induction names as [|t names IH]; [reflexivity|]. exact IH. Qed.

(** X6.  A profile without [signal_weights], or with a falsy value
    there ([null], an empty record), scores every unit 0, and the
    ranking is then the input order: the stable sort has nothing to
    move. *)
Theorem scorer_without_weights :
  forall (d : dict) (tagged_bullets : list json),
    Py.truthy (field (JDict d) (str "signal_weights") (JDict [])) = false ->
    forallb tagged_unit tagged_bullets = true ->
    exists ranked,
      scored_bullets (JDict d) tagged_bullets = Returned ranked
      /\ Forall (fun b => alignment_score b = 0) ranked
      /\ map bullet_text ranked
         = map (fun bullet => field bullet (str "bullet_text") (JStr []))
               tagged_bullets
      /\ map tags ranked
         = map (fun bullet => field bullet (str "tags") (JList []))
               tagged_bullets.
Proof.
  intros d bullets Hfalsy Hb.
  assert (Hw : signal_weights (JDict d) = Returned (JDict [])).
  { unfold signal_weights, Py.get, field in *.
    destruct (assoc_get (str "signal_weights") d) as [v|]; cbn [obind];
      unfold Py.or_; [now rewrite Hfalsy | reflexivity]. }
  assert (Hzero : Forall (fun b => alignment_score b = 0)
                         (map (scored_unit []) bullets)).
  { apply Forall_forall. intros b Hin.
    apply in_map_iff in Hin as (bullet & <- & _). apply total_weight_nil. }
  exists (map (scored_unit []) bullets).
  split; [|split; [exact Hzero|split]].
  - unfold scored_bullets. rewrite Hw. cbn [obind].
    rewrite score_each_typed by (reflexivity || assumption). cbn [obind].
    f_equal. apply sort_reverse_of_sorted.
    now apply (sorted_of_constant alignment_score 0).
  - rewrite map_map. reflexivity.
  - rewrite map_map. reflexivity.
Qed.

(** A profile whose weights are [null]: the units keep their order. *)
Lemma scorer_without_weights_witness :
  exists ranked,
    scored_bullets (JDict [(str "signal_weights", JNull)]) ranking_example_units
    = Returned ranked
    /\ Forall (fun b => alignment_score b = 0) ranked
    /\ map bullet_text ranked
       = map (fun bullet => field bullet (str "bullet_text") (JStr []))
             ranking_example_units
    /\ map tags ranked
       = map (fun bullet => field bullet (str "tags") (JList []))
             ranking_example_units.
Proof.
  apply (scorer_without_weights [(str "signal_weights", JNull)]
           ranking_example_units); reflexivity.
Defined.

Lemma assoc_get_In {A : Type} (k : pystr) (v : A) (d : list (pystr * A)) :
  assoc_get k d = Some v -> exists k', In (k', v) d.
Proof.
  induction d as [|[k' v'] d IH]; cbn [assoc_get]; [discriminate|].
  destruct (str_eqb k k').
  - intros [= <-]. exists k'. now left.
  - intros H. destruct (IH H) as (k'' & Hin). exists k''. now right.
Qed.

(** X7.  With every weight between 0 and 10, as the prompt asks of the
    oracle, the score of a unit is never negative and never more than
    ten times the number of its tags. *)
Theorem score_within_bounds :
  forall (w : list (pystr * Z)) (names : list pystr),
    Forall (fun kv => 0 <= snd kv <= 10) w ->
    exists s,
      score (JDict (weights_dict w)) (tag_list names) = Returned s
      /\ 0 <= s <= 10 * Z.of_nat (length names).
Proof.
  intros w names Hw. unfold tag_list.
  rewrite score_texts
    by (apply int_valued_weights_dict || apply forallb_is_text_map).
  rewrite texts_map_JStr. eexists. split; [reflexivity|].
  assert (Hone : forall t, 0 <= weight (weights_dict w) t <= 10).
  { intros t. rewrite weight_weights_dict.
    destruct (assoc_get t w) as [z|] eqn:Hget; [|lia].
    destruct (assoc_get_In _ _ _ Hget) as (k & Hin).
    rewrite Forall_forall in Hw. exact (Hw _ Hin). }
  unfold total_weight. induction names as [|t names IH]; cbn [map fold_right length].
  - lia.
  - specialize (Hone t). lia.
Qed.

(** Two weights at the ends of the range, three tags. *)
Lemma score_within_bounds_witness :
  exists s,
    score (JDict (weights_dict [(str "backend", 10); (str "frontend", 0)]))
          (tag_list [str "backend"; str "frontend"; str "backend"])
    = Returned s
    /\ 0 <= s <= 10 * Z.of_nat 3.
Proof.
  apply (score_within_bounds [(str "backend", 10); (str "frontend", 0)]
           [str "backend"; str "frontend"; str "backend"]).
  repeat constructor; cbn; lia.
Defined.

Lemma total_weight_perm (w : dict) (names names' : list pystr) :
  Permutation names names' -> total_weight w names = total_weight w names'.
Proof.
  unfold total_weight.
  induction 1 as [|t l l' _ IH|t u l|l l' l'' _ IH1 _ IH2];
    cbn [map fold_right]; lia.
Qed.

(** X8.  The score does not depend on the order in which a unit lists
    its tags: with integer weights, tag lists that are reorderings of
    each other score the same.  (A tag listed twice counts twice.) *)
Theorem score_ignores_tag_order :
  forall (w : dict) (names names' : list pystr),
    int_valued w = true ->
    Permutation names names' ->
    score (JDict w) (tag_list names) = score (JDict w) (tag_list names')
    /\ forall t, score (JDict w) (tag_list (t :: names))
                 = Returned (weight w t + total_weight w names).
Proof.
  intros w names names' Hw Hperm. unfold tag_list. split.
  - rewrite !score_texts by (assumption || apply forallb_is_text_map).
    rewrite !texts_map_JStr. f_equal. now apply total_weight_perm.
  - intros t.
    change (JStr t :: map JStr names) with (map JStr (t :: names)).
    rewrite score_texts by (assumption || apply forallb_is_text_map).
    rewrite texts_map_JStr. reflexivity.
Qed.

(** Two tags swapped. *)
Lemma score_ignores_tag_order_witness :
  score (JDict (weights_dict [(str "backend", 9); (str "frontend", 2)]))
        (tag_list [str "backend"; str "frontend"])
  = score (JDict (weights_dict [(str "backend", 9); (str "frontend", 2)]))
          (tag_list [str "frontend"; str "backend"]).
Proof.
  apply (score_ignores_tag_order
           (weights_dict [(str "backend", 9); (str "frontend", 2)])
           [str "backend"; str "frontend"] [str "frontend"; str "backend"]).
  - reflexivity.
  - apply perm_swap.
Defined.

Lemma score_each_raises (w : json) (before after : list json) (bullet : json)
    (scored : list scored_bullet) (e : exn) :
  score_each w before = Returned scored ->
  score_bullet w bullet = Raised e ->
  score_each w (before ++ bullet :: after) = Raised e.
Proof.
  revert scored. induction before as [|b before IH]; intros scored Hbefore Hbad.
  - cbn [app score_each]. now rewrite Hbad.
  - cbn [app score_each] in *.
    destruct (score_bullet w b) as [sb|]; [|discriminate]. cbn [obind] in *.
    destruct (score_each w before) as [sbs|]; [|discriminate].
    now rewrite (IH sbs eq_refl Hbad).
Qed.

Lemma sum_weights_unhashable (w : dict) (names : list pystr)
    (inner rest : list json) (acc : Z) :
  int_valued w = true ->
  sum_weights (JDict w) (map JStr names ++ JList inner :: rest) acc
  = Raised TypeError.
Proof.
  intros Hw. revert acc. induction names as [|t names IH]; intros acc.
  - reflexivity.
  - cbn [map app sum_weights]. rewrite tag_weight_text by exact Hw.
    cbn [obind]. apply IH.
Qed.

(** X9.  One malformed unit aborts the scoring: when the units before
    it are well formed and the loop raises on it, the Scorer raises
    that exception and returns no ranking, whatever comes after.  A
    unit that is not a record raises [AttributeError]; a tag that is
    itself a list raises [TypeError]. *)
Theorem scorer_raises_on_malformed_unit :
  forall (jd_signals : json) (before after : list json) (bullet : json),
    weighted_profile jd_signals = true ->
    forallb tagged_unit before = true ->
    (forall e,
        score_bullet (JDict (weights_of jd_signals)) bullet = Raised e ->
        scored_bullets jd_signals (before ++ bullet :: after) = Raised e)
    /\ (is_record bullet = false ->
        scored_bullets jd_signals (before ++ bullet :: after)
        = Raised AttributeError)
    /\ (forall d names inner rest,
          bullet = JDict d ->
          assoc_get (str "tags") d
          = Some (JList (map JStr names ++ JList inner :: rest)) ->
          scored_bullets jd_signals (before ++ bullet :: after)
          = Raised TypeError).
Proof.
  intros jd_signals before after bullet Hp Hbefore.
  destruct (signal_weights_typed jd_signals Hp) as [Hw Hint].
  assert (Hgeneral : forall e,
             score_bullet (JDict (weights_of jd_signals)) bullet = Raised e ->
             scored_bullets jd_signals (before ++ bullet :: after) = Raised e).
  { intros e Hbad. unfold scored_bullets. rewrite Hw. cbn [obind].
    rewrite (score_each_raises _ before after bullet _ e
               (score_each_typed _ before Hint Hbefore) Hbad).
    reflexivity. }
  split; [exact Hgeneral|]. split.
  - intros Hbullet. apply Hgeneral.
    destruct bullet; try reflexivity; discriminate.
  - intros d names inner rest -> Htags. apply Hgeneral.
    unfold score_bullet, Py.get. rewrite Htags. cbn [obind].
    assert (Hor : Py.or_ (JList (map JStr names ++ JList inner :: rest)) (JList [])
                  = JList (map JStr names ++ JList inner :: rest))
      by (destruct names; reflexivity).
    rewrite Hor. unfold score. cbn [Py.iter obind].
    now rewrite sum_weights_unhashable.
Qed.

(** A text where a unit is due, and a unit with a nested tag list. *)
Lemma scorer_raises_on_malformed_unit_witness :
  scored_bullets ranking_example_profile
    (ranking_example_units ++ JStr (str "Built APIs") :: sparse_units)
  = Raised AttributeError
  /\ scored_bullets ranking_example_profile
       (ranking_example_units
        ++ JDict [(str "tags", JList (map JStr [str "backend"]
                                      ++ JList [JStr (str "frontend")] :: []))]
        :: sparse_units)
     = Raised TypeError.
Proof.
  split.
  - apply (proj1 (proj2 (scorer_raises_on_malformed_unit
                           ranking_example_profile ranking_example_units
                           sparse_units (JStr (str "Built APIs"))
                           eq_refl eq_refl))).
    reflexivity.
  - apply (proj2 (proj2 (scorer_raises_on_malformed_unit
                           ranking_example_profile ranking_example_units
                           sparse_units _ eq_refl eq_refl))
             [(str "tags", JList (map JStr [str "backend"]
                                  ++ JList [JStr (str "frontend")] :: []))]
             [str "backend"] [JStr (str "frontend")] []);
      reflexivity.
Defined.

(** X10.  Units that come in by decreasing score come out in the same
    order: ranking a list that is already ranked changes nothing. *)
Theorem ranking_keeps_sorted_input :
  forall (jd_signals : json) (tagged_bullets : list json)
         (scored : list scored_bullet),
    scored_in_input_order jd_signals tagged_bullets = Returned scored ->
    descending scored ->
    scored_bullets jd_signals tagged_bullets = Returned scored.
Proof.
  intros jd_signals bullets scored Hscored Hsorted.
  unfold scored_in_input_order, scored_bullets in *.
  destruct (signal_weights jd_signals) as [w|]; [|discriminate].
  cbn [obind] in *. rewrite Hscored. cbn [obind].
  f_equal. now apply sort_reverse_of_sorted.
Qed.

(** Units with scores 9, 5, 3 in that order. *)
Lemma ranking_keeps_sorted_input_witness :
  exists scored,
    scored_in_input_order ranking_example_profile
      [ unit_of (str "second") [str "frontend"];
        unit_of (str "first") [str "backend"];
        unit_of (str "fourth") [str "data_ml"] ]
    = Returned scored
    /\ map alignment_score scored = [9; 5; 3]
    /\ scored_bullets ranking_example_profile
         [ unit_of (str "second") [str "frontend"];
           unit_of (str "first") [str "backend"];
           unit_of (str "fourth") [str "data_ml"] ]
       = Returned scored.
Proof.
  eexists. split; [vm_compute; reflexivity|].
  split; [reflexivity|].
  apply ranking_keeps_sorted_input; [vm_compute; reflexivity|].
  repeat constructor; cbn; lia.
Defined.

(* ================================================================= *)
(** ** More about the extraction step *)

Lemma replace_from_skip (old new : pystr) (k : nat) (s : pystr) :
  replace_from old new k s = replace_from old new O (skipn k s).
Proof.
  revert k. induction s as [|c s IH]; intros [|k]; try reflexivity.
  cbn [replace_from skipn]. apply IH.
Qed.

Lemma skipn_length_le {A : Type} (k : nat) (l : list A) :
  (length (skipn k l) <= length l)%nat.
Proof. rewrite length_skipn. lia. Qed.

(** Removing the fence markers does not bring two backquotes to the
    front of a text that did not start with two. *)
Lemma replace_fence_front (s : pystr) :
  starts_with [96%N; 96%N] s = false ->
  starts_with [96%N; 96%N] (replace [96%N; 96%N; 96%N] [] s) = false.
Proof.
  unfold replace. destruct s as [|x [|y s]]; intros H; [reflexivity| |].
  - cbn [replace_from]. rewrite starts_with_cons.
    destruct (96 =? x)%N eqn:Hx; cbn [andb].
    + change (starts_with [96%N; 96%N] []) with false. cbv iota.
      rewrite starts_with_cons, Hx. reflexivity.
    + rewrite starts_with_cons, Hx. reflexivity.
  - rewrite !starts_with_cons in H.
    cbn [replace_from]. rewrite !starts_with_cons.
    destruct (96 =? x)%N eqn:Hx; cbn [andb] in *.
    + destruct (96 =? y)%N eqn:Hy; [discriminate|]. cbn [andb].
      rewrite !starts_with_cons, Hx, Hy. reflexivity.
    + rewrite starts_with_cons, Hx. reflexivity.
Qed.

(** After [replace("```", "")] no fence marker is left. *)
Lemma replace_fence_clean (n : nat) :
  forall s, (length s <= n)%nat ->
            find [96%N; 96%N; 96%N] (replace [96%N; 96%N; 96%N] [] s) = None.
Proof.
  unfold replace. induction n as [|n IH]; intros s Hn.
  - destruct s; [reflexivity | simpl in Hn; lia].
  - destruct s as [|c s]; [reflexivity|]. cbn [length] in Hn.
    cbn [replace_from].
    destruct (starts_with [96%N; 96%N; 96%N] (c :: s)) eqn:Hhere.
    + cbn [app length Nat.sub]. rewrite replace_from_skip.
      apply IH. pose proof (skipn_length_le 2 s). lia.
    + cbn [find]. rewrite starts_with_cons in *.
      destruct (96 =? c)%N; cbn [andb] in *.
      * pose proof (replace_fence_front s Hhere) as Hfront.
        unfold replace in Hfront. rewrite Hfront.
        rewrite IH by lia. reflexivity.
      * rewrite IH by lia. reflexivity.
Qed.

Lemma find_None_prefix (p a b : pystr) :
  find p (a ++ b) = None -> find p a = None.
Proof.
  intros H. destruct (find p a) as [i|] eqn:Ha; [|reflexivity].
  destruct (find_Some_split _ _ _ Ha) as (x & y & -> & _).
  exfalso. apply (find_None_no_occurrence _ _ H x (y ++ b)).
  now rewrite <- !app_assoc.
Qed.

Lemma lstrip_suffix (s : pystr) : exists w, s = w ++ Py.lstrip s.
Proof.
  induction s as [|c s (w & IH)]; [now exists []|].
  cbn [Py.lstrip]. destruct (Py.isspace c).
  - exists (c :: w). cbn [app]. now rewrite <- IH.
  - now exists [].
Qed.

Lemma rstrip_prefix (s : pystr) : exists w, s = Py.rstrip s ++ w.
Proof.
  unfold Py.rstrip. destruct (lstrip_suffix (rev s)) as (w & Hw).
  exists (rev w). rewrite <- rev_app_distr, <- Hw. now rewrite rev_involutive.
Qed.

Lemma find_None_suffix (p a b : pystr) :
  find p (a ++ b) = None -> find p b = None.
Proof.
  induction a as [|c a IH]; [trivial|].
  intros H. cbn [app] in H. apply find_cons_None in H as [_ H]. now apply IH.
Qed.

Lemma find_None_strip (p s : pystr) :
  find p s = None -> find p (Py.strip s) = None.
Proof.
  intros H. unfold Py.strip.
  destruct (rstrip_prefix (Py.lstrip s)) as (w & Hw).
  apply (find_None_prefix p _ w). rewrite <- Hw.
  destruct (lstrip_suffix s) as (w' & Hw').
  apply (find_None_suffix p w'). now rewrite <- Hw'.
Qed.

Lemma strip_fences_clean (text : pystr) : find FENCE (strip_fences text) = None.
Proof.
  unfold strip_fences. apply find_None_strip.
  change FENCE with [96%N; 96%N; 96%N].
  now apply (replace_fence_clean (length (replace FENCE_LATEX [] text))).
Qed.

(** X11.  The text the extraction returns never holds a fence marker:
    three backquotes in a row do not occur in it, so neither does the
    marker with the language tag. *)
Theorem clean_text_has_no_fence :
  forall response_text : option pystr,
    find FENCE (clean_text response_text) = None
    /\ find FENCE_LATEX (clean_text response_text) = None.
Proof.
  intros response_text.
  assert (H : find FENCE (clean_text response_text) = None)
    by (unfold clean_text; apply strip_fences_clean).
  split; [exact H|].
  now apply (find_None_longer FENCE (str "latex")).
Qed.

Lemma lstrip_head (s : pystr) (c : char) (rest : pystr) :
  Py.lstrip s = c :: rest -> Py.isspace c = false.
Proof.
  induction s as [|x s IH]; [discriminate|].
  cbn [Py.lstrip]. destruct (Py.isspace x) eqn:Hx; [exact IH|].
  now intros [= <- _].
Qed.

Lemma rstrip_last (s front : pystr) (c : char) :
  Py.rstrip s = front ++ [c] -> Py.isspace c = false.
Proof.
  unfold Py.rstrip. intros H.
  apply (f_equal (@rev N)) in H.
  rewrite rev_involutive, rev_app_distr in H. cbn [rev app] in H.
  now apply lstrip_head in H.
Qed.

Lemma strip_head (s : pystr) (c : char) (rest : pystr) :
  Py.strip s = c :: rest -> Py.isspace c = false.
Proof.
  unfold Py.strip. intros H.
  destruct (rstrip_prefix (Py.lstrip s)) as (w & Hw).
  rewrite H in Hw. cbn [app] in Hw. now apply lstrip_head in Hw.
Qed.

(** A text that neither starts nor ends with white space is its own
    [strip]. *)
Lemma strip_fixed (t : pystr) :
  (forall c rest, t = c :: rest -> Py.isspace c = false) ->
  (forall c front, t = front ++ [c] -> Py.isspace c = false) ->
  Py.strip t = t.
Proof.
  intros Hhead Hlast. destruct t as [|c rest]; [reflexivity|].
  pose proof (Hhead c rest eq_refl) as Hc.
  destruct rest as [|x rest'] using rev_ind.
  - unfold Py.strip, Py.rstrip. rewrite lstrip_not_space by exact Hc.
    cbn [rev app]. rewrite lstrip_not_space by exact Hc. reflexivity.
  - apply strip_between; [exact Hc|].
    apply (Hlast x (c :: rest')). reflexivity.
Qed.

Lemma strip_idempotent (s : pystr) : Py.strip (Py.strip s) = Py.strip s.
Proof.
  apply strip_fixed.
  - intros c rest H. now apply strip_head in H.
  - intros c front H. unfold Py.strip in H. now apply rstrip_last in H.
Qed.

(** X12.  The text the extraction returns is trimmed: it does not
    start and does not end with a white-space character, so stripping
    it again changes nothing. *)
Theorem clean_text_is_trimmed :
  forall response_text : option pystr,
    (forall c rest, clean_text response_text = c :: rest ->
                    Py.isspace c = false)
    /\ (forall c front, clean_text response_text = front ++ [c] ->
                        Py.isspace c = false)
    /\ Py.strip (clean_text response_text) = clean_text response_text.
Proof.
  intros response_text. unfold clean_text, strip_fences.
  split; [|split].
  - intros c rest H. now apply strip_head in H.
  - intros c front H. unfold Py.strip in H. now apply rstrip_last in H.
  - apply strip_idempotent.
Qed.

(** X13.  Stripping the fences is idempotent: applied to its own result
    it finds nothing to remove. *)
Theorem strip_fences_idempotent :
  forall text : pystr, strip_fences (strip_fences text) = strip_fences text.
Proof.
  intros text. pose proof (strip_fences_clean text) as Hclean.
  unfold strip_fences at 1.
  rewrite (replace_without_occurrence FENCE_LATEX)
    by (apply (find_None_longer FENCE (str "latex")); exact Hclean).
  rewrite (replace_without_occurrence FENCE) by exact Hclean.
  unfold strip_fences. apply strip_idempotent.
Qed.

(* ================================================================= *)
(** ** The job name of [compile_latex] *)

Lemma sub_runs_name_chars (in_run : bool) (text : pystr) :
  forallb is_name_char (sub_runs in_run text) = true.
Proof.
  revert in_run. induction text as [|c text IH]; intros in_run; [reflexivity|].
  cbn [sub_runs]. destruct (is_name_char c) eqn:Hc.
  - cbn [forallb]. now rewrite Hc, IH.
  - destruct in_run; [apply IH|]. cbn [forallb]. now rewrite IH.
Qed.

Lemma sub_runs_length (in_run : bool) (text : pystr) :
  (length (sub_runs in_run text) <= length text)%nat.
Proof.
  revert in_run. induction text as [|c text IH]; intros in_run; [reflexivity|].
  pose proof (IH false). pose proof (IH true).
  cbn [sub_runs]. destruct (is_name_char c); [|destruct in_run];
    cbn [length]; lia.
Qed.

Lemma sub_runs_fixed (text : pystr) :
  forallb is_name_char text = true -> sub_runs false text = text.
Proof.
  induction text as [|c text IH]; [reflexivity|].
  cbn [forallb sub_runs]. intros H. apply andb_prop in H as [-> H].
  now rewrite IH.
Qed.

Lemma strip_length (s : pystr) : (length (Py.strip s) <= length s)%nat.
Proof.
  unfold Py.strip.
  destruct (rstrip_prefix (Py.lstrip s)) as (w & Hw).
  destruct (lstrip_suffix s) as (w' & Hw').
  apply (f_equal (@length N)) in Hw, Hw'. rewrite length_app in Hw, Hw'. lia.
Qed.

Lemma name_char_not_space (c : char) :
  is_name_char c = true -> Py.isspace c = false.
Proof.
  intros Hc. destruct (Py.isspace c) eqn:Hs; [|reflexivity].
  unfold Py.isspace in Hs. apply existsb_exists in Hs as (x & Hin & Heq).
  apply N.eqb_eq in Heq. subst x. exfalso.
  cbn [In] in Hin.
  repeat (destruct Hin as [<- | Hin]; [vm_compute in Hc; discriminate|]).
  exact Hin.
Qed.

Lemma forallb_last {A : Type} (p : A -> bool) (front : list A) (x : A) :
  forallb p (front ++ [x]) = true -> p x = true.
Proof.
  rewrite forallb_app. cbn [forallb]. intros H.
  apply andb_prop in H as [_ H]. now apply andb_prop in H as [H _].
Qed.

Lemma strip_name (name : pystr) :
  forallb is_name_char name = true -> Py.strip name = name.
Proof.
  intros H. apply strip_fixed.
  - intros c rest ->. cbn [forallb] in H. apply andb_prop in H as [H _].
    now apply name_char_not_space.
  - intros c front ->. apply name_char_not_space. now apply forallb_last in H.
Qed.

(** X14.  Whatever the company name, the job name is [resume_] followed
    by characters of the class [[A-Za-z0-9_-]] only: no white space, no
    dot, no path separator.  It is never longer than the prefix and the
    company name together, and cleaning a cleaned name changes
    nothing. *)
Theorem jobname_is_safe :
  forall company_name : pystr,
    jobname company_name = str "resume_" ++ clean_cn company_name
    /\ forallb is_name_char (jobname company_name) = true
    /\ (length (jobname company_name) <= 7 + length company_name)%nat
    /\ clean_cn (clean_cn company_name) = clean_cn company_name.
Proof.
  intros name.
  assert (Hchars : forallb is_name_char (clean_cn name) = true)
    by apply sub_runs_name_chars.
  split; [reflexivity|]. split; [|split].
  - unfold jobname. rewrite forallb_app, Hchars. reflexivity.
  - unfold jobname, clean_cn. rewrite length_app.
    change (length (str "resume_")) with 7%nat.
    pose proof (sub_runs_length false (Py.strip name)).
    pose proof (strip_length name). lia.
  - unfold clean_cn at 1. rewrite (strip_name _ Hchars).
    now apply sub_runs_fixed.
Qed.

(** X15.  A company name written with letters, digits, underscores and
    hyphens only goes into the job name unchanged. *)
Theorem jobname_keeps_clean_name :
  forall company_name : pystr,
    forallb is_name_char company_name = true ->
    jobname company_name = str "resume_" ++ company_name.
Proof.
  intros name H. unfold jobname, clean_cn.
  now rewrite (strip_name _ H), (sub_runs_fixed _ H).
Qed.

(** The name of the source's own example. *)
Lemma jobname_keeps_clean_name_witness :
  jobname (str "Google") = str "resume_" ++ str "Google".
Proof. apply jobname_keeps_clean_name. reflexivity. Defined.

(** X16.  The clean-up loop looks for the job name with the extensions
    [.aux], [.log] and [.out]: none of the three names is the [.tex]
    file that was written or the PDF that was asked for, whatever the
    company name. *)
Theorem cleanup_spares_source_and_pdf :
  forall company_name : pystr,
    Forall (fun file_to_rm =>
              file_to_rm <> str "tailored_resume.tex"
              /\ file_to_rm <> jobname company_name ++ str ".pdf")
           (files_to_rm company_name).
Proof.
  intros name. unfold files_to_rm. cbn [map].
  assert (Htex : forall ext, jobname name ++ ext <> str "tailored_resume.tex").
  { intros ext H. unfold jobname in H.
    change (str "resume_") with (114%N :: str "esume_") in H.
    change (str "tailored_resume.tex") with (116%N :: str "ailored_resume.tex") in H.
    cbn [app] in H. discriminate. }
  assert (Hpdf : forall ext, ext <> str ".pdf" ->
                             jobname name ++ ext <> jobname name ++ str ".pdf").
  { intros ext Hext H. apply app_inv_head in H. contradiction. }
  repeat constructor; try apply Htex; apply Hpdf; intros H;
    vm_compute in H; discriminate.
Qed.

(* ================================================================= *)
(** ** The clipboard guard of [main] *)

Lemma lstrip_nil (s : pystr) :
  Py.lstrip s = [] <-> forallb Py.isspace s = true.
Proof.
  induction s as [|c s IH]; [now split|].
  cbn [Py.lstrip forallb]. destruct (Py.isspace c); cbn [andb];
    [exact IH | split; discriminate].
Qed.

Lemma forallb_rev {A : Type} (p : A -> bool) (l : list A) :
  forallb p (rev l) = forallb p l.
Proof.
  induction l as [|x l IH]; [reflexivity|].
  cbn [rev forallb]. rewrite forallb_app, IH. cbn [forallb].
  rewrite andb_true_r. apply andb_comm.
Qed.

Lemma strip_nil (s : pystr) :
  Py.strip s = [] <-> forallb Py.isspace s = true.
Proof.
  split.
  - unfold Py.strip, Py.rstrip. intros H.
    apply (f_equal (@rev N)) in H. rewrite rev_involutive in H. cbn [rev] in H.
    apply lstrip_nil in H. rewrite forallb_rev in H.
    destruct (Py.lstrip s) as [|c r] eqn:Hl; [now apply lstrip_nil|].
    apply lstrip_head in Hl. cbn [forallb] in H. rewrite Hl in H. discriminate.
  - intros H. unfold Py.strip. apply lstrip_nil in H. now rewrite H.
Qed.

Lemma split_words_nil (word s : pystr) :
  split_words word s = [] <-> word = [] /\ forallb Py.isspace s = true.
Proof.
  revert word. induction s as [|c s IH]; intros word.
  - cbn [split_words forallb]. destruct word; split; try discriminate; auto.
    intros [H _]. discriminate.
  - cbn [split_words forallb]. destruct (Py.isspace c); cbn [andb].
    + destruct word; [apply IH|]. split; [discriminate | intros [H _]; discriminate].
    + rewrite IH. split; [intros [H _]; discriminate | intros [_ H]; discriminate].
Qed.

(** X17.  [main] stops with exit status 1 exactly when the clipboard
    holds nothing but white space, after the one error line.  Otherwise
    it goes on, and the number of words it reports is at least 1. *)
Theorem clipboard_guard :
  forall jd : pystr,
    (forallb Py.isspace jd = true ->
     main_capture jd = (Raised SystemExit, [str "Error: Clipboard is empty."]))
    /\ (forallb Py.isspace jd = false ->
        exists n,
          length (str_split jd) = S n
          /\ main_capture jd
             = (Returned tt,
                [str "Captured " ++ decimal (S n) ++ str " words." ++ [NEWLINE]])).
Proof.
  intros jd. unfold main_capture. split; intros H.
  - apply strip_nil in H. rewrite H. reflexivity.
  - destruct (Py.strip jd) as [|c r] eqn:Hs.
    { apply strip_nil in Hs. congruence. }
    destruct (str_split jd) as [|word words] eqn:Hw.
    { apply split_words_nil in Hw as [_ Hw]. congruence. }
    exists (length words). split; reflexivity.
Qed.

(* ================================================================= *)
(** ** The profile guard of [main] *)




(* ================================================================= *)
(** ** What step 2 of [main] prints *)

Lemma printed_bind {A B : Type} (m : run A) (k : A -> run B) :
  printed (bind m k)
  = printed m ++ match result m with
                 | Returned a => printed (k a)
                 | Raised _ => []
                 end.
Proof.
  destruct m as [[a|e] out]; simpl; [|now rewrite app_nil_r].
  now destruct (k a).
Qed.

Lemma tag_resume_bullets_printed (response_text : pystr) :
  printed (tag_resume_bullets response_text)
  = str "[2/4] Semantically tagging resume bullets..."
    :: printed (safe_json_loads response_text (str "bullet tagging")).
Proof.
  unfold tag_resume_bullets. rewrite !printed_bind.
  cbn [printed print result fst snd app]. f_equal.
  destruct (result (safe_json_loads response_text (str "bullet tagging")))
    as [data|e]; [|apply app_nil_r].
  destruct (negb (Py.truthy data)); [apply app_nil_r|].
  rewrite printed_bind. cbn [printed result lift fst snd app].
  destruct (Py.get data _ _) as [[| | | | | |]|]; apply app_nil_r.
Qed.

Lemma main_tag_and_score_printed (jd_signals : json) (response_text : pystr) :
  printed (main_tag_and_score jd_signals response_text)
  = printed (tag_resume_bullets response_text)
    ++ match result (tag_resume_bullets response_text) with
       | Returned tagged_bullets =>
           match tagged_bullets with
           | [] => [str "[WARN] No tagged bullets returned. Tailoring will be more generic."]
           | _ :: _ => []
           end
           ++ [NEWLINE :: str "Pausing for 10 seconds for API Rate Limits...";
               str "[3/4] Computing dynamic alignment scores and executing LaTeX adjustments..."]
       | Raised _ => []
       end.
Proof.
  unfold main_tag_and_score. rewrite printed_bind. f_equal.
  destruct (result (tag_resume_bullets response_text)) as [tagged|e];
    [|reflexivity].
  rewrite printed_bind.
  assert (Hwarn : result match tagged with
                         | [] => print (str "[WARN] No tagged bullets returned. Tailoring will be more generic.")
                         | _ :: _ => ret tt
                         end = Returned tt) by now destruct tagged.
  rewrite Hwarn, !printed_bind.
  destruct tagged; reflexivity.
Qed.

(** X19.  In step 2 of [main] the parser's warning about the Tagger's
    reply never comes alone: whenever it is printed, the Tagger has
    returned the empty list and [main] prints its own warning that the
    tailoring will be more generic, and goes on to step 3. *)
Theorem parse_warning_then_generic_warning :
  forall (jd_signals : json) (response_text : pystr),
    In (warning (str "bullet tagging"))
       (printed (main_tag_and_score jd_signals response_text)) ->
    result (tag_resume_bullets response_text) = Returned []
    /\ printed (main_tag_and_score jd_signals response_text)
       = [str "[2/4] Semantically tagging resume bullets...";
          warning (str "bullet tagging");
          str "[WARN] No tagged bullets returned. Tailoring will be more generic.";
          NEWLINE :: str "Pausing for 10 seconds for API Rate Limits...";
          str "[3/4] Computing dynamic alignment scores and executing LaTeX adjustments..."].
Proof.
  intros jd reply.
  rewrite main_tag_and_score_printed, tag_resume_bullets_printed.
  destruct (safe_json_loads_outcomes reply (str "bullet tagging"))
    as [(v & H) | [H | H]].
  - rewrite H. cbn [printed snd app]. intros Hin. exfalso.
    destruct (result (tag_resume_bullets reply)) as [[|unit tagged]|e];
      vm_compute in Hin; intuition discriminate.
  - intros _.
    assert (Htagger : result (tag_resume_bullets reply) = Returned [])
      by now rewrite tag_resume_bullets_result, H.
    rewrite Htagger, H. split; reflexivity.
  - rewrite H. cbn [printed snd app]. intros Hin. exfalso.
    destruct (result (tag_resume_bullets reply)) as [[|unit tagged]|e];
      vm_compute in Hin; intuition discriminate.
Qed.

(** A reply in prose. *)
Lemma parse_warning_then_generic_warning_witness :
  In (warning (str "bullet tagging"))
     (printed (main_tag_and_score (JDict profile_defaults)
                                  (str "Sorry, I cannot tag this resume.")))
  /\ result (tag_resume_bullets (str "Sorry, I cannot tag this resume."))
     = Returned [].
Proof.
  assert (Hin : In (warning (str "bullet tagging"))
                   (printed (main_tag_and_score (JDict profile_defaults)
                               (str "Sorry, I cannot tag this resume.")))).
  { vm_compute. right. left. reflexivity. }
  split; [exact Hin|].
  exact (proj1 (parse_warning_then_generic_warning _ _ Hin)).
Defined.
